(** * The fluid-dynamics forecaster of radar_app, embedded in Rocq

    Source: src/src/uploaders/s3_uploader.py (class FluidDynamicsForecaster),
    src/src/config.py (RadarConfig), src/src/models.py (RadarFrame,
    ForecastResult and the exception classes); and, around the forecaster,
    src/src/main.py (steps 3 and 4 of RadarWorker.process_cycle),
    src/src/processors/radar_processor.py (class DMIDownloader),
    src/src/utils.py, src/master.py (the upload) and src/legacy/forecast.py
    (the interpolated pictures).

    Modelling conventions.
    - A numpy array of rank 2 is a dtype tag and a row-major list of rows.
    - float32/float64 arithmetic is carried out exactly, over the rationals
      [Q]; rounding, infinities and NaN are outside the model.
    - A Python call that can raise returns a [result]; [try ... except] is
      [try_except].
    - The three library routines whose values are not determined by the
      repository (cv2.calcOpticalFlowPyrLK, scipy's gaussian_filter and
      np.exp) are Section variables; cv2.remap and the numpy operators are
      modelled by their documented contract.
    - A Python string is a [string], one [ascii] for each character; the
      texts of the program are ASCII. strptime, int, the file system and the
      network are parameters; a folder is the list of the names in it.
    - An exception is its class and its message. The messages of the
      repository's own exceptions are those of the source; the text given to
      library exceptions is indicative, and no statement rests on it. *)

From Stdlib Require Import String Ascii DecimalString DecimalPos DecimalZ Permutation Sorted.
From Stdlib Require Import String ZArith QArith Qround Qminmax Bool Lia Lqa List.
Import ListNotations.

Local Open Scope Q_scope.

(* ------------------------------------------------------------------ *)
(** ** Python exceptions and fallible calls *)

Module Py.

(** The classes of src/src/models.py (exceptions part), followed by the
    library exceptions the forecaster can meet. *)
Inductive exn_class : Type :=
| RadarProcessingError
| DownloadError
| ProcessingError
| ForecastError
| UploadError
| ValueError
| ZeroDivisionError
| OverflowError
| TypeError
| UFuncTypeError
| IndexError
| cv2_error.

Definition class_name (c : exn_class) : string :=
  match c with
  | RadarProcessingError => "RadarProcessingError"
  | DownloadError => "DownloadError"
  | ProcessingError => "ProcessingError"
  | ForecastError => "ForecastError"
  | UploadError => "UploadError"
  | ValueError => "ValueError"
  | ZeroDivisionError => "ZeroDivisionError"
  | OverflowError => "OverflowError"
  | TypeError => "TypeError"
  | UFuncTypeError => "UFuncTypeError"
  | IndexError => "IndexError"
  | cv2_error => "error"
  end%string.

(** Method resolution order below the class itself, up to [Exception]. *)
Definition bases (c : exn_class) : list string :=
  match c with
  | RadarProcessingError => ["Exception"]
  | DownloadError | ProcessingError | ForecastError | UploadError =>
      ["RadarProcessingError"; "Exception"]
  | ValueError | TypeError => ["Exception"]
  | ZeroDivisionError | OverflowError => ["ArithmeticError"; "Exception"]
  | UFuncTypeError => ["TypeError"; "Exception"]
  | IndexError => ["LookupError"; "Exception"]
  | cv2_error => ["Exception"]
  end%string.

Definition mro (c : exn_class) : list string := class_name c :: bases c.

Record exn : Type := mk_exn { exn_cls : exn_class; exn_msg : string }.

(** [isinstance(e, <class named n>)]. *)
Definition isinstance (e : exn) (n : string) : bool :=
  existsb (String.eqb n) (mro (exn_cls e)).

Inductive result (A : Type) : Type :=
| Ok (a : A)
| Raise (e : exn).
Arguments Ok {A} a.
Arguments Raise {A} e.

Definition bind {A B : Type} (m : result A) (k : A -> result B) : result B :=
  match m with
  | Ok a => k a
  | Raise e => Raise e
  end.

(** [try: body  except Exception as e: handler e]. *)
Definition try_except {A : Type} (body : result A) (handler : exn -> result A)
  : result A :=
  match body with
  | Ok a => Ok a
  | Raise e => handler e
  end.

(** The call raises an exception that is an instance of the class named [n]. *)
Definition raises {A : Type} (m : result A) (n : string) : Prop :=
  exists e, m = Raise e /\ isinstance e n = true.

End Py.
Import Py.

Notation "x <- m ;; k" := (bind m (fun x => k))
  (at level 61, m at next level, right associativity).
Notation "' p <- m ;; k" := (bind m (fun p => k))
  (at level 61, p pattern, m at next level, right associativity).

(* ------------------------------------------------------------------ *)
(** ** datetime and timedelta *)

Module DateTime.

(** A datetime is its distance from datetime.min (0001-01-01T00:00:00) in
    microseconds; datetime.max is 9999-12-31T23:59:59.999999. *)
Definition datetime : Type := Z.
Definition timedelta : Type := Z.

Definition us_per_minute : Z := 60000000.
Definition us_per_day : Z := 86400000000.
Definition max_us : Z := 3652059 * us_per_day - 1.
Definition max_delta_days : Z := 999999999.

Definition valid (t : datetime) : Prop := (0 <= t <= max_us)%Z.

(** [timedelta(minutes=m)] for an int [m]. *)
Definition timedelta_minutes (m : Z) : result timedelta :=
  let us := (m * us_per_minute)%Z in
  let days := (us / us_per_day)%Z in
  if (Z.abs days <=? max_delta_days)%Z then Ok us
  else Raise (mk_exn OverflowError "days must have magnitude <= 999999999").

(** [t + d]. *)
Definition add (t : datetime) (d : timedelta) : result datetime :=
  let r := (t + d)%Z in
  if ((0 <=? r) && (r <=? max_us))%Z then Ok r
  else Raise (mk_exn OverflowError "date value out of range").

End DateTime.

(* ------------------------------------------------------------------ *)
(** ** numpy arrays of rank 2 *)

Module Np.

(** Only the distinction the forecaster's code is sensitive to: the 8-bit
    unsigned grids of frames and results, and floating-point working arrays. *)
Inductive dtype : Type := uint8 | floating.

Record ndarray : Type := mk_nd { nd_dtype : dtype; nd_rows : list (list Q) }.

Definition nrows (a : ndarray) : nat := length (nd_rows a).
Definition ncols (a : ndarray) : nat :=
  match nd_rows a with
  | [] => 0%nat
  | r :: _ => length r
  end.
Definition shape (a : ndarray) : nat * nat := (nrows a, ncols a).

(** Every row has the array's column count. *)
Definition rect (a : ndarray) : Prop :=
  Forall (fun r => length r = ncols a) (nd_rows a).

Definition get (a : ndarray) (i j : nat) : Q := nth j (nth i (nd_rows a) []) 0.

Definition tabulate (r c : nat) (f : nat -> nat -> Q) : list (list Q) :=
  map (fun i => map (fun j => f i j) (seq 0 c)) (seq 0 r).

(** Every cell satisfies [P]. *)
Definition all_cells (P : Q -> Prop) (a : ndarray) : Prop :=
  Forall (Forall P) (nd_rows a).

(** [np.array_equal]: same shape, same values. *)
Definition array_equal (a b : ndarray) : Prop :=
  Forall2 (Forall2 Qeq) (nd_rows a) (nd_rows b).

(** Conversion of one value to an 8-bit unsigned integer: truncation toward
    zero, then the low 8 bits. *)
Definition Qtrunc (x : Q) : Z := if Qle_bool 0 x then Qfloor x else Qceiling x.
Definition to_uint8 (x : Q) : Q := inject_Z (Qtrunc x mod 256).

Definition astype (t : dtype) (a : ndarray) : ndarray :=
  match t with
  | floating => mk_nd floating (nd_rows a)
  | uint8 => mk_nd uint8 (map (map to_uint8) (nd_rows a))
  end.

Definition copy (a : ndarray) : ndarray := a.

(** [np.zeros_like(a, dtype=np.float32)] *)
Definition zeros_like (a : ndarray) : ndarray :=
  mk_nd floating (map (map (fun _ => 0)) (nd_rows a)).

(** [np.clip(a, lo, hi)], that is [minimum(maximum(a, lo), hi)]. *)
Definition clip1 (lo hi x : Q) : Q := Qmin (Qmax x lo) hi.
Definition clip (a : ndarray) (lo hi : Q) : ndarray :=
  mk_nd (nd_dtype a) (map (map (clip1 lo hi)) (nd_rows a)).

(** [a * k] and [a / k] for a Python or numpy floating scalar [k]. *)
Definition mul_scalar (a : ndarray) (k : Q) : ndarray :=
  mk_nd floating (map (map (fun x => x * k)) (nd_rows a)).
Definition div_scalar (a : ndarray) (k : Q) : ndarray :=
  mk_nd floating (map (map (fun x => x / k)) (nd_rows a)).

(** Broadcasting of one axis. *)
Definition bdim (m n : nat) : option nat :=
  if (m =? n)%nat then Some m
  else if (m =? 1)%nat then Some n
  else if (n =? 1)%nat then Some m
  else None.

(** The cell of [a] that lands on position (i, j) of the broadcast result. *)
Definition bget (a : ndarray) (i j : nat) : Q :=
  get a (if (nrows a =? 1)%nat then 0%nat else i)
        (if (ncols a =? 1)%nat then 0%nat else j).

Definition broadcast_error : exn :=
  mk_exn ValueError "operands could not be broadcast together".

(** [a - b] on floating operands. *)
Definition sub (a b : ndarray) : result ndarray :=
  match bdim (nrows a) (nrows b), bdim (ncols a) (ncols b) with
  | Some r, Some c =>
      Ok (mk_nd floating (tabulate r c (fun i j => bget a i j - bget b i j)))
  | _, _ => Raise broadcast_error
  end.

Definition cast_error : exn :=
  mk_exn UFuncTypeError
    "Cannot cast ufunc output from dtype('float64') to dtype('uint8') with casting rule 'same_kind'".

(** [a += b]: the sum is written into [a], so [b] must broadcast to the
    shape of [a], and a floating sum cannot be stored into an integer array. *)
Definition iadd (a b : ndarray) : result ndarray :=
  match nd_dtype a, nd_dtype b with
  | uint8, floating => Raise cast_error
  | _, _ =>
      if (((nrows b =? nrows a) || (nrows b =? 1))
          && ((ncols b =? ncols a) || (ncols b =? 1)))%nat
      then
        let s := tabulate (nrows a) (ncols a) (fun i j => get a i j + bget b i j) in
        Ok (match nd_dtype a with
            | floating => mk_nd floating s
            | uint8 => mk_nd uint8 (map (map to_uint8) s)
            end)
      else Raise broadcast_error
  end.

(** Boolean masks, e.g. [field > 80]. *)
Definition mask : Type := list (list bool).
Definition mask_of (p : Q -> bool) (a : ndarray) : mask := map (map p) (nd_rows a).
Definition mask_and (m n : mask) : mask :=
  map (fun rs : list bool * list bool =>
         map (fun bs : bool * bool => andb (fst bs) (snd bs))
             (combine (fst rs) (snd rs)))
      (combine m n).

(** [a[m] *= k] for a Python float [k]: the product of the selected cells is
    written back; on an integer array the in-place product cannot be cast. *)
Definition imul_where (a : ndarray) (m : mask) (k : Q) : result ndarray :=
  match nd_dtype a with
  | uint8 => Raise cast_error
  | floating =>
      Ok (mk_nd floating
            (map (fun rm : list Q * list bool =>
                    map (fun xb : Q * bool => if snd xb then fst xb * k else fst xb)
                        (combine (fst rm) (snd rm)))
                 (combine (nd_rows a) m)))
  end.

Fixpoint set_nth {A : Type} (l : list A) (n : nat) (x : A) : list A :=
  match l, n with
  | [], _ => []
  | _ :: t, O => x :: t
  | h :: t, S n' => h :: set_nth t n' x
  end.

(** [a[i, j] = x] on a floating array. *)
Definition setitem (a : ndarray) (i j : nat) (x : Q) : result ndarray :=
  if ((i <? nrows a) && (j <? length (nth i (nd_rows a) [])))%nat
  then Ok (mk_nd (nd_dtype a)
             (set_nth (nd_rows a) i (set_nth (nth i (nd_rows a) []) j x)))
  else Raise (mk_exn IndexError "index is out of bounds").

(** [np.mgrid[0:rows, 0:cols].astype(np.float32)]: row and column numbers. *)
Definition mgrid_y (rows cols : nat) : ndarray :=
  mk_nd floating (tabulate rows cols (fun i _ => inject_Z (Z.of_nat i))).
Definition mgrid_x (rows cols : nat) : ndarray :=
  mk_nd floating (tabulate rows cols (fun _ j => inject_Z (Z.of_nat j))).

End Np.
Import Np.

(* ------------------------------------------------------------------ *)
(** ** cv2.remap *)

Module Cv.

(** The source pixel at integer position (x, y); outside the image it is the
    constant border value 0 (BORDER_CONSTANT with the default borderValue). *)
Definition pixel (src : ndarray) (y x : Z) : Q :=
  if ((0 <=? y) && (y <? Z.of_nat (nrows src))
      && (0 <=? x) && (x <? Z.of_nat (ncols src)))%Z
  then get src (Z.to_nat y) (Z.to_nat x)
  else 0.

(** Bilinear interpolation (INTER_LINEAR) of [src] at the point (x, y). *)
Definition bilinear (src : ndarray) (x y : Q) : Q :=
  let x0 := Qfloor x in
  let y0 := Qfloor y in
  let fx := x - inject_Z x0 in
  let fy := y - inject_Z y0 in
  (1 - fx) * (1 - fy) * pixel src y0 x0
  + fx * (1 - fy) * pixel src y0 (x0 + 1)
  + (1 - fx) * fy * pixel src (y0 + 1) x0
  + fx * fy * pixel src (y0 + 1) (x0 + 1).

(** [cv2.remap(src, map_x, map_y, INTER_LINEAR, borderMode=BORDER_CONSTANT)]:
    dst(i, j) = src(map_x(i, j), map_y(i, j)); the two maps must have one
    size, which is the size of the result. *)
Definition remap (src map_x map_y : ndarray) : result ndarray :=
  if ((nrows map_x =? nrows map_y) && (ncols map_x =? ncols map_y))%nat
  then Ok (mk_nd floating
             (tabulate (nrows map_x) (ncols map_x)
                (fun i j => bilinear src (get map_x i j) (get map_y i j))))
  else Raise (mk_exn cv2_error
                "(-215:Assertion failed) _map2.size() == _map1.size() in function 'remap'").

End Cv.

(* ------------------------------------------------------------------ *)
(** ** config.py and models.py *)

Record RadarConfig : Type := mk_config {
  forecast_steps : Z;
  forecast_interval_minutes : Z
}.

(** The defaults of the dataclass. *)
Definition default_config : RadarConfig :=
  {| forecast_steps := 6; forecast_interval_minutes := 10 |}.

Module RadarFrame.
Record t : Type := mk {
  timestamp : DateTime.datetime;
  data : ndarray;
  file_path : string;
  processed : bool
}.
End RadarFrame.

Module ForecastResult.
Record t : Type := mk {
  timestamp : DateTime.datetime;
  data : ndarray;
  confidence : Q;
  method : string
}.
End ForecastResult.

(* ------------------------------------------------------------------ *)
(** ** class FluidDynamicsForecaster *)

Definition Qnat (n : nat) : Q := inject_Z (Z.of_nat n).

(** [range(0, stop, 10)] *)
Definition range10 (stop : nat) : list nat :=
  map (fun k => (k * 10)%nat) (seq 0 ((stop + 9) / 10)).

(** [range(1, n + 1)] *)
Definition range_from_1 (n : Z) : list Z :=
  map Z.of_nat (seq 1 (Z.to_nat n)).

(** [l[-1]] *)
Definition last_item {A : Type} (l : list A) : result A :=
  match rev l with
  | x :: _ => Ok x
  | [] => Raise (mk_exn IndexError "list index out of range")
  end.

(** [l[-k:]] for [1 <= k <= len(l)] *)
Definition last_k {A : Type} (k : nat) (l : list A) : list A :=
  skipn (length l - k) l.

Definition forecast_error (m : string) : exn := mk_exn ForecastError m.

(** The valid intensity range. *)
Definition in_range (q : Q) : Prop := 0 <= q <= 255.

Section FluidDynamicsForecaster.

(** [self.config] *)
Variable config : RadarConfig.

(** [cv2.calcOpticalFlowPyrLK(prev, next, points, None)[0]]: the tracked
    position of every point, or an exception of the library. *)
Variable calcOpticalFlowPyrLK :
  ndarray -> ndarray -> list (Q * Q) -> result (list (Q * Q)).

(** [scipy.ndimage.gaussian_filter(a, sigma=s)] on the cells of [a]. *)
Variable gaussian_filter : list (list Q) -> Q -> list (list Q).

(** [np.exp] *)
Variable np_exp : Q -> Q.

Definition smooth (a : ndarray) (sigma : Q) : ndarray :=
  mk_nd (nd_dtype a) (gaussian_filter (nd_rows a) sigma).

(** The points handed to the tracker:
    [[x, y] for y in range(0, shape[0], 10) for x in range(0, shape[1], 10)]. *)
Definition anchor_points (frame1 : ndarray) : list (Q * Q) :=
  flat_map (fun y => map (fun x => (Qnat x, Qnat y)) (range10 (ncols frame1)))
           (range10 (nrows frame1)).

(** The loop [for i, (x, y) in enumerate(flow.reshape(-1, 2))], from index [i]. *)
Fixpoint scatter_flow (frame1 : ndarray) (i : nat) (flow : list (Q * Q))
    (u v : ndarray) : result (ndarray * ndarray) :=
  match flow with
  | [] => Ok (u, v)
  | (x, y) :: rest =>
      if (ncols frame1 / 10 =? 0)%nat
      then Raise (mk_exn ZeroDivisionError "integer division or modulo by zero")
      else
        let orig_y := (i / (ncols frame1 / 10) * 10)%nat in
        let orig_x := (i mod (ncols frame1 / 10) * 10)%nat in
        if ((orig_y <? nrows frame1) && (orig_x <? ncols frame1))%nat
        then
          u' <- setitem u orig_y orig_x (x - Qnat orig_x) ;;
          v' <- setitem v orig_y orig_x (y - Qnat orig_y) ;;
          scatter_flow frame1 (S i) rest u' v'
        else scatter_flow frame1 (S i) rest u v
  end.

(** The velocity arrays before smoothing. *)
Definition velocity_samples (frame1 : ndarray) (flow : list (Q * Q))
  : result (ndarray * ndarray) :=
  scatter_flow frame1 0 flow (zeros_like frame1) (zeros_like frame1).

Definition calculate_optical_flow (frame1 frame2 : ndarray)
  : result (ndarray * ndarray) :=
  try_except
    (let frame1_8bit := astype uint8 (clip frame1 0 255) in
     let frame2_8bit := astype uint8 (clip frame2 0 255) in
     flow <- calcOpticalFlowPyrLK frame1_8bit frame2_8bit (anchor_points frame1) ;;
     ' (u, v) <- velocity_samples frame1 flow ;;
     let u := smooth u 2 in
     let v := smooth v 2 in
     Ok (u, v))
    (fun e => Raise (forecast_error ("Optical flow calculation failed: " ++ exn_msg e))).

(** The body of [advect_field]'s [try]. *)
Definition advect_body (field u v : ndarray) (dt : Q) : result ndarray :=
  let rows := nrows field in
  let cols := ncols field in
  let y_coords := mgrid_y rows cols in
  let x_coords := mgrid_x rows cols in
  x_back <- sub x_coords (mul_scalar u dt) ;;
  y_back <- sub y_coords (mul_scalar v dt) ;;
  let x_back := clip x_back 0 (inject_Z (Z.of_nat cols - 1)) in
  let y_back := clip y_back 0 (inject_Z (Z.of_nat rows - 1)) in
  Cv.remap (astype floating field) x_back y_back.

Definition advect_field (field u v : ndarray) (dt : Q) : result ndarray :=
  try_except (advect_body field u v dt)
    (fun e => Raise (forecast_error ("Field advection failed: " ++ exn_msg e))).

Definition apply_precipitation_decay (field : ndarray) (dt : Q) (decay_rate : Q)
  : ndarray :=
  let decay_factor := np_exp (- decay_rate * dt / 3600) in
  mul_scalar field decay_factor.

Definition gt (k : Q) (x : Q) : bool := negb (Qle_bool x k).
Definition lt (k : Q) (x : Q) : bool := negb (Qle_bool k x).

(** The body of [apply_growth_decay_model]'s [try]. *)
Definition growth_decay_body (field : ndarray) (dt : Q) : result ndarray :=
  let growth_mask := mask_and (mask_of (gt 80) field) (mask_of (lt 150) field) in
  let decay_mask := mask_of (gt 180) field in
  let result := copy field in
  result <- imul_where result growth_mask (1 + (5 # 100) * dt / 3600) ;;
  result <- imul_where result decay_mask (1 - (15 # 100) * dt / 3600) ;;
  let result := apply_precipitation_decay result dt (1 # 10) in
  let result := clip result 0 255 in
  Ok result.

Definition apply_growth_decay_model (field : ndarray) (dt : Q) : result ndarray :=
  try_except (growth_decay_body field dt) (fun _ => Ok field).

(** The accumulator of [calculate_average_velocity]; [u_sum] and [v_sum] are
    both [None] or both arrays. *)
Record velocity_acc : Type := mk_acc {
  sums : option (ndarray * ndarray);
  valid_pairs : nat
}.

(** One iteration of the loop over consecutive pairs. *)
Definition accumulate_pair (f1 f2 : RadarFrame.t) (st : velocity_acc) : velocity_acc :=
  match calculate_optical_flow (RadarFrame.data f1) (RadarFrame.data f2) with
  | Raise _ => st
  | Ok (u, v) =>
      match sums st with
      | None => mk_acc (Some (copy u, copy v)) (S (valid_pairs st))
      | Some (u_sum, v_sum) =>
          match iadd u_sum u with
          | Raise _ => st
          | Ok u_sum' =>
              match iadd v_sum v with
              | Raise _ => mk_acc (Some (u_sum', v_sum)) (valid_pairs st)
              | Ok v_sum' => mk_acc (Some (u_sum', v_sum')) (S (valid_pairs st))
              end
          end
      end
  end.

(** [for i in range(len(frames) - 1)] over [frames[i]], [frames[i + 1]]. *)
Fixpoint velocity_loop (frames : list RadarFrame.t) (st : velocity_acc) : velocity_acc :=
  match frames with
  | f1 :: ((f2 :: _) as rest) => velocity_loop rest (accumulate_pair f1 f2 st)
  | _ => st
  end.

Definition calculate_average_velocity (frames : list RadarFrame.t)
  : result (ndarray * ndarray) :=
  if (length frames <? 2)%nat
  then Raise (forecast_error "Need at least 2 frames to calculate velocity")
  else
    let st := velocity_loop frames (mk_acc None 0) in
    if (valid_pairs st =? 0)%nat
    then Raise (forecast_error "No valid frame pairs for velocity calculation")
    else
      match sums st with
      | Some (u_sum, v_sum) =>
          Ok (div_scalar u_sum (Qnat (valid_pairs st)),
              div_scalar v_sum (Qnat (valid_pairs st)))
      | None =>
          Raise (mk_exn TypeError "unsupported operand type(s) for /: 'NoneType' and 'int'")
      end.

(** [max(0.1, 1.0 - (step * 0.15))] *)
Definition confidence_at (step : Z) : Q :=
  Qmax (1 # 10) (1 - inject_Z step * (15 # 100)).

(** The loop [for step in range(1, forecast_steps + 1)] over the steps left. *)
Fixpoint forecast_loop (u_avg v_avg : ndarray) (dt : Z)
    (current_time : DateTime.datetime) (steps : list Z)
    (current_field : ndarray) (forecasts : list ForecastResult.t)
  : result (list ForecastResult.t) :=
  match steps with
  | [] => Ok forecasts
  | step :: rest =>
      current_field <- advect_field current_field u_avg v_avg (inject_Z dt) ;;
      current_field <- apply_growth_decay_model current_field (inject_Z dt) ;;
      let confidence := confidence_at step in
      delta <- DateTime.timedelta_minutes (step * forecast_interval_minutes config) ;;
      forecast_time <- DateTime.add current_time delta ;;
      let forecast_result :=
        ForecastResult.mk forecast_time (astype uint8 current_field)
                          confidence "fluid_dynamics" in
      forecast_loop u_avg v_avg dt current_time rest current_field
                    (forecasts ++ [forecast_result])
  end.

Definition generate_forecast (frames : list RadarFrame.t)
  : result (list ForecastResult.t) :=
  if (length frames <? 3)%nat
  then Raise (forecast_error "Need at least 3 frames for forecasting")
  else
    try_except
      (let recent_frames := last_k (Nat.min 10 (length frames)) frames in
       ' (u_avg, v_avg) <- calculate_average_velocity recent_frames ;;
       last <- last_item recent_frames ;;
       let current_field := astype floating (copy (RadarFrame.data last)) in
       let current_time := RadarFrame.timestamp last in
       let dt := (forecast_interval_minutes config * 60)%Z in
       forecast_loop u_avg v_avg dt current_time
                     (range_from_1 (forecast_steps config)) current_field [])
      (fun e => Raise (forecast_error ("Forecast generation failed: " ++ exn_msg e))).


(** *** Vocabulary of the statements about the forecaster *)

(** The estimates of the consecutive pairs whose estimation succeeds, in
    the order of the pairs. *)
Fixpoint successful_estimates (frames : list RadarFrame.t)
  : list (ndarray * ndarray) :=
  match frames with
  | f1 :: ((f2 :: _) as rest) =>
      match calculate_optical_flow (RadarFrame.data f1) (RadarFrame.data f2) with
      | Ok uv => uv :: successful_estimates rest
      | Raise _ => successful_estimates rest
      end
  | _ => []
  end.

(** The time the loop stamps on the forecast of [step], from the seed time
    [t0]: [t0 + timedelta(minutes=step * forecast_interval_minutes)]. *)
Definition forecast_time (t0 : DateTime.datetime) (step : Z) : DateTime.datetime :=
  (t0 + step * forecast_interval_minutes config * DateTime.us_per_minute)%Z.

(** What the loop records for [step]. The grid is the cast of a working
    field whose values already lie in the intensity range. *)
Definition step_record (t0 : DateTime.datetime) (step : Z) (r : ForecastResult.t)
  : Prop :=
  ForecastResult.timestamp r = forecast_time t0 step
  /\ DateTime.valid (ForecastResult.timestamp r)
  /\ ForecastResult.confidence r = confidence_at step
  /\ ForecastResult.method r = "fluid_dynamics"%string
  /\ exists w, nd_dtype w = floating /\ all_cells in_range w
               /\ ForecastResult.data r = astype uint8 w.

End FluidDynamicsForecaster.

(* ------------------------------------------------------------------ *)
(** ** Vocabulary of the statements *)

(** The window handed to the aggregator. *)
Definition recent_window (frames : list RadarFrame.t) : list RadarFrame.t :=
  last_k (Nat.min 10 (length frames)) frames.

(** The sum and the mean of the cells (i, j) of a list of arrays. *)
Definition cell_sum (l : list ndarray) (i j : nat) : Q :=
  fold_right (fun a s => get a i j + s) 0 l.
Definition cell_mean (l : list ndarray) (i j : nat) : Q :=
  cell_sum l i j / Qnat (length l).

(** The accumulator after the pairs whose successful estimates are [done]. *)
Definition acc_inv (r c : nat) (done : list (ndarray * ndarray))
    (st : velocity_acc) : Prop :=
  valid_pairs st = length done /\
  match sums st with
  | None => done = []
  | Some (U, V) =>
      done <> []
      /\ (shape U = (r, c) /\ nd_dtype U = floating)
      /\ (shape V = (r, c) /\ nd_dtype V = floating)
      /\ forall i j, (i < r)%nat -> (j < c)%nat ->
           get U i j == cell_sum (map fst done) i j
           /\ get V i j == cell_sum (map snd done) i j
  end.

(** The origin of cell (i, j), clipped into the grid. *)
Definition back_x (field u : ndarray) (dt : Q) (i j : nat) : Q :=
  clip1 0 (inject_Z (Z.of_nat (ncols field) - 1))
        (Qnat j - get (mul_scalar u dt) i j).
Definition back_y (field v : ndarray) (dt : Q) (i j : nat) : Q :=
  clip1 0 (inject_Z (Z.of_nat (nrows field) - 1))
        (Qnat i - get (mul_scalar v dt) i j).

(** The evolution model, cell by cell. *)
Definition growth_factor (dt : Q) : Q := 1 + (5 # 100) * dt / 3600.
Definition decay_factor (dt : Q) : Q := 1 - (15 # 100) * dt / 3600.
Definition in_growth_band (x : Q) : bool := gt 80 x && lt 150 x.

(** What [growth_decay_body] computes for a cell whose input value is [x]:
    both tests read the input value [x]. *)
Definition evolve_cell (np_exp : Q -> Q) (dt x : Q) : Q :=
  let r := if in_growth_band x then x * growth_factor dt else x in
  let r := if gt 180 x then r * decay_factor dt else r in
  clip1 0 255 (r * np_exp (- (1 # 10) * dt / 3600)).

(** The evolution model as the specification words it: three effects in
    order, each one testing and scaling the current value of the cell. *)
Definition sequential_cell (np_exp : Q -> Q) (dt x : Q) : Q :=
  let r := if in_growth_band x then x * growth_factor dt else x in
  let r := if gt 180 r then r * decay_factor dt else r in
  clip1 0 255 (r * np_exp (- (1 # 10) * dt / 3600)).

Definition evolve_sequential (np_exp : Q -> Q) (field : ndarray) (dt : Q) : ndarray :=
  mk_nd floating (map (map (sequential_cell np_exp dt)) (nd_rows field)).

(** The anchor cells (row, column), in the order of [anchor_points]. *)
Definition anchor_cells (frame1 : ndarray) : list (nat * nat) :=
  flat_map (fun y => map (fun x => (y, x)) (range10 (ncols frame1)))
           (range10 (nrows frame1)).

(** What C9 asks of the arrays before smoothing: the displacement of every
    tracked anchor stands in the anchor's own cell, and every other cell
    holds 0. *)
Definition samples_at_anchors (frame1 : ndarray) (flow : list (Q * Q))
    (u v : ndarray) : Prop :=
  Forall2 (fun cell tracked =>
             get u (fst cell) (snd cell) == fst tracked - Qnat (snd cell)
             /\ get v (fst cell) (snd cell) == snd tracked - Qnat (fst cell))
          (anchor_cells frame1) flow
  /\ forall i j, ~ In (i, j) (anchor_cells frame1) ->
                 get u i j == 0 /\ get v i j == 0.

(** The cell the loop computes from the index [k] of a tracked point, with
    [m] anchors per row: [divmod(k, m)], both parts times 10. *)
Definition cell_of (m k : nat) : nat * nat := ((k / m * 10)%nat, (k mod m * 10)%nat).

(** The array has [h] rows of [w] cells each. *)
Definition full (a : ndarray) (h w : nat) : Prop :=
  nrows a = h /\ forall i, (i < h)%nat -> length (nth i (nd_rows a) []) = w.

(** A frame of 11 rows and 15 columns, and the tracker's answer when every
    anchor has moved by (1, 2). *)
Definition frame_11x15 : ndarray := mk_nd uint8 (tabulate 11 15 (fun _ _ => 0)).
Definition flow_11x15 : list (Q * Q) :=
  map (fun p => (fst p + 1, snd p + 2)) (anchor_points frame_11x15).

(* ------------------------------------------------------------------ *)
(** ** Stand-ins for the library routines, used to run the model *)

Module Standin.

(** A tracker that finds every point where it was (a still scene). *)
Definition still_tracker (prev next : ndarray) (pts : list (Q * Q))
  : result (list (Q * Q)) := Ok pts.

(** A tracker that finds every point displaced by (1, 2). *)
Definition shift_tracker (prev next : ndarray) (pts : list (Q * Q))
  : result (list (Q * Q)) := Ok (map (fun p => (fst p + 1, snd p + 2)) pts).

(** A tracker that cannot be evaluated. *)
Definition failing_tracker (prev next : ndarray) (pts : list (Q * Q))
  : result (list (Q * Q)) :=
  Raise (mk_exn cv2_error "(-215:Assertion failed) in function 'calcOpticalFlowPyrLK'").

(** A filter that leaves its argument as it is (what the Gaussian filter
    does on a constant array). *)
Definition no_filter (a : list (list Q)) (sigma : Q) : list (list Q) := a.

(** A rational approximation of the exponential, positive everywhere. *)
Definition exp_approx (x : Q) : Q :=
  if Qle_bool x 0 then 1 / (1 - x + x * x / 2) else 1 + x + x * x / 2.

(** A short horizon: two steps of ten minutes. *)
Definition two_steps : RadarConfig := mk_config 2 10.

Definition frame (t : Z) (rows : list (list Q)) : RadarFrame.t :=
  RadarFrame.mk t (mk_nd uint8 rows) "frame.h5" false.

Definition row20 : list Q :=
  [0; 10; 90; 100; 149; 151; 181; 200; 255; 0;
   0; 10; 90; 100; 149; 151; 181; 200; 255; 0].

(** Three frames of shape (2, 20), ten minutes apart. *)
Definition three_frames : list RadarFrame.t :=
  [frame 0 [row20; row20];
   frame 600000000 [row20; row20];
   frame 1200000000 [row20; row20]].

(** Ten frames of shape (2, 20), ten minutes apart. *)
Definition ten_frames : list RadarFrame.t :=
  map (fun k => frame (Z.of_nat k * 600000000) [row20; row20]) (seq 0 10).

End Standin.

(* ------------------------------------------------------------------ *)
(** ** Vocabulary of the further properties *)


(** Two frames with precipitation, then a frame without any. *)
Definition clearing_frames : list RadarFrame.t :=
  [Standin.frame 0 (tabulate 2 20 (fun _ j => Qnat j));
   Standin.frame 600000000 (tabulate 2 20 (fun _ j => Qnat j));
   Standin.frame 1200000000 (tabulate 2 20 (fun _ _ => 0))].

(** Three frames of one row and five columns. *)
Definition narrow_frames : list RadarFrame.t :=
  [Standin.frame 0 [[1; 2; 3; 4; 5]];
   Standin.frame 600000000 [[1; 2; 3; 4; 5]];
   Standin.frame 1200000000 [[1; 2; 3; 4; 5]]].

(** The aggregator has counted a pair: the sums are arrays. *)
Definition started (st : velocity_acc) : Prop :=
  (0 < valid_pairs st)%nat /\ sums st <> None.

(* ------------------------------------------------------------------ *)
(** ** Python strings and sorting *)

Module Str.

Local Open Scope string_scope.

(** [s.endswith(suffix)] *)
Definition endswith (s suffix : string) : bool :=
  let n := String.length s in
  let k := String.length suffix in
  (k <=? n)%nat && String.eqb (substring (n - k) k s) suffix.

(** [s.split('.')[0]]: the part before the first dot. *)
Fixpoint before_dot (s : string) : string :=
  match s with
  | EmptyString => EmptyString
  | String c rest => if Ascii.eqb c "." then EmptyString else String c (before_dot rest)
  end.

(** [s.replace(old, new)] for a non-empty [old]: the occurrences of [old]
    are found from the left and do not overlap. [skip] counts the characters
    of an occurrence that are still to be passed over. *)
Fixpoint replace_from (skip : nat) (old new s : string) : string :=
  match s with
  | EmptyString => EmptyString
  | String c rest =>
      match skip with
      | S k => replace_from k old new rest
      | O =>
          if prefix old s
          then new ++ replace_from (String.length old - 1) old new rest
          else String c (replace_from 0 old new rest)
      end
  end.

(** With an empty [old], [new] is put before every character and at the end. *)
Fixpoint interleave (new s : string) : string :=
  match s with
  | EmptyString => new
  | String c rest => new ++ String c (interleave new rest)
  end.

Definition replace (old new s : string) : string :=
  match old with
  | EmptyString => interleave new s
  | String _ _ => replace_from 0 old new s
  end.

(** [str(n)] and [f"{n}"] for an int. *)
Definition of_int (n : Z) : string := NilZero.string_of_int (Z.to_int n).

End Str.

(** [list.sort(key=...)] and [sorted]: the sort is stable. [leb x y] is
    [not (key(y) < key(x))]. *)
Fixpoint insert_sorted {A : Type} (leb : A -> A -> bool) (x : A) (l : list A)
  : list A :=
  match l with
  | [] => [x]
  | y :: rest => if leb x y then x :: l else y :: insert_sorted leb x rest
  end.

Definition stable_sort {A : Type} (leb : A -> A -> bool) (l : list A) : list A :=
  fold_right (insert_sorted leb) [] l.

(** [os.path.join(a, b)] of posixpath, for two components. *)
Definition path_join (a b : string) : string :=
  if prefix "/" b then b
  else if (String.eqb a EmptyString || Str.endswith a "/")%bool then (a ++ b)%string
  else (a ++ "/" ++ b)%string.

(* ------------------------------------------------------------------ *)
(** ** src/src/utils.py *)

Module Utils.

Local Open Scope string_scope.

(** The characters of the class given to [re.sub]: backslash, slash, colon,
    asterisk, question mark, double quote (character 34), less-than,
    greater-than and the vertical bar. *)
Definition invalid_chars : list ascii :=
  ["\"; "/"; ":"; "*"; "?"; "034"; "<"; ">"; "|"]%char.

Definition is_invalid (c : ascii) : bool := existsb (Ascii.eqb c) invalid_chars.

(** [re.sub] of every character of the class by the empty string. *)
Fixpoint sanitize_filename (filename : string) : string :=
  match filename with
  | EmptyString => EmptyString
  | String c rest =>
      if is_invalid c then sanitize_filename rest
      else String c (sanitize_filename rest)
  end.

(** [months_translation], in the order of the dict. *)
Definition months_translation : list (string * string) :=
  [("January", "januar"); ("February", "februar"); ("March", "marts");
   ("April", "april"); ("May", "maj"); ("June", "juni");
   ("July", "juli"); ("August", "august"); ("September", "september");
   ("October", "oktober"); ("November", "november"); ("December", "december")].

Definition translate_month_to_danish (date_str : string) : string :=
  fold_left (fun s em => Str.replace (fst em) (snd em) s) months_translation date_str.

Section ExtractTimestamp.

(** [datetime.strptime(s, '%Y-%m-%dT%H-%M-%SZ')] *)
Variable strptime : string -> result DateTime.datetime.

(** [None] is the answer to a name that does not parse; an exception that
    is no ValueError is not caught. *)
Definition extract_timestamp (filename : string) : result (option DateTime.datetime) :=
  let timestamp_str := Str.replace "_forecast_1" EmptyString (Str.before_dot filename) in
  match strptime timestamp_str with
  | Ok t => Ok (Some t)
  | Raise e => if isinstance e "ValueError" then Ok None else Raise e
  end.

End ExtractTimestamp.

End Utils.

(** The string holds no character [c]; it holds none of the characters [cs]. *)
Definition lacks (c : ascii) (s : string) : bool :=
  forallb (fun x => negb (Ascii.eqb x c)) (list_ascii_of_string s).
Definition lacks_all (cs : list ascii) (s : string) : bool :=
  forallb (fun c => lacks c s) cs.

(** The capital letters that begin the English names of the months. *)
Definition month_initials : list ascii := ["J"; "F"; "M"; "A"; "S"; "O"; "N"; "D"]%char.

(* ------------------------------------------------------------------ *)
(** ** src/master.py: the upload *)

Module Master.

Local Open Scope string_scope.

(** The name of the picture of forecast [i] (from 0) of the run on the
    latest file [base_file_name]: save_forecast_to_hdf5 writes
    [f"{base_file_name}_forecast_{i+1}.h5"], and convert_forecast_hdf5_to_png
    names the picture after the file, with the extension replaced. *)
Definition forecast_png_name (base_file_name : string) (i : nat) : string :=
  base_file_name ++ "_forecast_" ++ Str.of_int (Z.of_nat i + 1) ++ ".png".

Section Upload.

(** [datetime.strptime(s, '%Y-%m-%dT%H-%M-%SZ')] *)
Variable strptime : string -> result DateTime.datetime.

(** [SUBFOLDER = os.getenv('SUBFOLDER')], [None] when the variable is not set. *)
Variable SUBFOLDER : option string.

Definition extract_timestamp (filename : string) : result (option DateTime.datetime) :=
  let timestamp_str := Str.before_dot filename in
  match strptime timestamp_str with
  | Ok t => Ok (Some t)
  | Raise e => if isinstance e "ValueError" then Ok None else Raise e
  end.

(** [[(f, extract_timestamp(f)) for f in files]] without the pairs whose
    timestamp is [None]. *)
Fixpoint files_with_timestamps (files : list string)
  : result (list (string * DateTime.datetime)) :=
  match files with
  | [] => Ok []
  | f :: rest =>
      ts <- extract_timestamp f ;;
      tl <- files_with_timestamps rest ;;
      Ok (match ts with
          | Some t => (f, t) :: tl
          | None => tl
          end)
  end.

(** [os.path.join(SUBFOLDER, new_file_name)] *)
Definition s3_key_of (new_file_name : string) : result string :=
  match SUBFOLDER with
  | Some sub => Ok (path_join sub new_file_name)
  | None => Raise (mk_exn TypeError
                     "expected str, bytes or os.PathLike object, not NoneType")
  end.

(** The loop over [enumerate(files_with_timestamps)], from index [idx]: the
    calls [s3_client.upload_file(file_path, BUCKET_NAME, s3_key, ...)] it
    makes, in order. An exception of a call is logged, and the loop goes on. *)
Fixpoint upload_loop (folder : string) (start_index : Z) (idx : nat)
    (files : list (string * DateTime.datetime)) : result (list (string * string)) :=
  match files with
  | [] => Ok []
  | (filename, _) :: rest =>
      let file_path := path_join folder filename in
      let new_file_name := Str.of_int (start_index + Z.of_nat idx) ++ ".png" in
      s3_key <- s3_key_of new_file_name ;;
      calls <- upload_loop folder start_index (S idx) rest ;;
      Ok ((file_path, s3_key) :: calls)
  end.

(** [upload_and_rename_files(folder, start_index)], where [listing] is
    [os.listdir(folder)]: the uploads it asks for. *)
Definition upload_and_rename_files (listing : list string) (folder : string)
    (start_index : Z) : result (list (string * string)) :=
  let files := filter (fun f => Str.endswith f ".png") listing in
  files_with_timestamps <- files_with_timestamps files ;;
  let files_with_timestamps :=
    stable_sort (fun a b : string * DateTime.datetime => (snd a <=? snd b)%Z)
                files_with_timestamps in
  upload_loop folder start_index 0 files_with_timestamps.

End Upload.

End Master.

(* ------------------------------------------------------------------ *)
(** ** src/legacy/forecast.py: the interpolated pictures *)

Module Legacy.

(** [k * a] for a Python float [k]. *)
Definition scalar_mul (k : Q) (a : ndarray) : ndarray :=
  mk_nd floating (map (map (fun x => k * x)) (nd_rows a)).

(** [a + b] *)
Definition add (a b : ndarray) : result ndarray :=
  match bdim (nrows a) (nrows b), bdim (ncols a) (ncols b) with
  | Some r, Some c =>
      Ok (mk_nd floating (tabulate r c (fun i j => bget a i j + bget b i j)))
  | _, _ => Raise broadcast_error
  end.

Definition interpolate_data (data1 data2 : ndarray) (alpha : Q) : result ndarray :=
  add (scalar_mul (1 - alpha) data1) (scalar_mul alpha data2).

(** [a[mask] = 0] for the mask [p(a)]. *)
Definition zero_where (p : Q -> bool) (a : ndarray) : ndarray :=
  mk_nd (nd_dtype a) (map (map (fun x => if p x then 0 else x)) (nd_rows a)).



(** [l[-2]] *)
Definition last_but_one {A : Type} (l : list A) : result A :=
  match rev l with
  | _ :: x :: _ => Ok x
  | _ => Raise (mk_exn IndexError "list index out of range")
  end.

(** The data of picture [i] of [for i in range(6)]. *)
Definition forecast_data (datasets : list ndarray) (i : nat) : result ndarray :=
  let alpha := Qnat (i + 1) / 6 in
  data1 <- last_but_one datasets ;;
  data2 <- last_item datasets ;;
  forecast_data <- interpolate_data data1 data2 alpha ;;
  Ok (zero_where (fun x => Qeq_bool x 255) forecast_data).

Fixpoint forecast_loop (datasets : list ndarray) (steps : list nat)
  : result (list ndarray) :=
  match steps with
  | [] => Ok []
  | i :: rest =>
      d <- forecast_data datasets i ;;
      ds <- forecast_loop datasets rest ;;
      Ok (d :: ds)
  end.

(** The data of the pictures that generate_forecast draws from the data
    sets it has read: none when there are fewer than two. The name of the
    latest file is taken to parse; the drawing and the saving of a picture
    are not part of the model. *)
Definition generate_forecast (datasets : list ndarray) : result (list ndarray) :=
  if (length datasets <? 2)%nat then Ok []
  else forecast_loop datasets (seq 0 6).

End Legacy.

(* ------------------------------------------------------------------ *)
(** ** src/src/main.py: steps 3 and 4 of RadarWorker.process_cycle *)

Module Worker.

Section ProcessCycle.

Variable config : RadarConfig.
Variable calcOpticalFlowPyrLK :
  ndarray -> ndarray -> list (Q * Q) -> result (list (Q * Q)).
Variable gaussian_filter : list (list Q) -> Q -> list (list Q).
Variable np_exp : Q -> Q.

(** [self.processor.load_hdf5_data] and [self.processor.process_to_png]; the
    class RadarProcessor is not among the sources. *)
Variable load_hdf5_data : string -> result RadarFrame.t.
Variable process_to_png : RadarFrame.t -> bool -> result string.

(** [l[-10:]] *)
Definition last_ten {A : Type} (l : list A) : list A := skipn (length l - 10) l.

(** The loop of step 3 over the files left, with the frames loaded so far. *)
Fixpoint load_loop (files : list string) (radar_frames : list RadarFrame.t)
  : list RadarFrame.t :=
  match files with
  | [] => radar_frames
  | hdf5_file :: rest =>
      match load_hdf5_data hdf5_file with
      | Ok frame => load_loop rest (radar_frames ++ [frame])
      | Raise _ => load_loop rest radar_frames
      end
  end.

Definition load_frames (hdf5_files : list string) : list RadarFrame.t :=
  load_loop (last_ten (stable_sort String.leb hdf5_files)) [].

(** The loop of step 4 over the forecasts left: [forecast_png_files] when the
    loop ends, by exhaustion or by the exception of a conversion. *)
Fixpoint png_loop (forecasts : list ForecastResult.t) (forecast_png_files : list string)
  : list string :=
  match forecasts with
  | [] => forecast_png_files
  | forecast :: rest =>
      let forecast_frame :=
        RadarFrame.mk (ForecastResult.timestamp forecast)
                      (ForecastResult.data forecast) EmptyString false in
      match process_to_png forecast_frame true with
      | Ok png_path => png_loop rest (forecast_png_files ++ [png_path])
      | Raise _ => forecast_png_files
      end
  end.

(** [forecast_png_files] after step 4. *)
Definition forecast_png_files (radar_frames : list RadarFrame.t) : list string :=
  if (3 <=? length radar_frames)%nat
  then
    match generate_forecast config calcOpticalFlowPyrLK gaussian_filter np_exp
                            radar_frames with
    | Ok forecasts => png_loop forecasts []
    | Raise _ => []
    end
  else [].

End ProcessCycle.

End Worker.

(* ------------------------------------------------------------------ *)
(** ** Vocabulary of the statements about names and uploads *)

Local Open Scope string_scope.

(** The last character of a string. *)
Fixpoint last_char (s : string) : option ascii :=
  match s with
  | EmptyString => None
  | String c EmptyString => Some c
  | String _ rest => last_char rest
  end.

(** The format '%Y-%m-%dT%H-%M-%SZ' ends with the letter Z, which strptime
    matches in either case. *)
Definition ends_in_Z (s : string) : bool :=
  match last_char s with
  | Some c => (Ascii.eqb c "Z" || Ascii.eqb c "z")%bool
  | None => false
  end.

(** The stem of the name parses, and the timestamp it parses to. *)
Definition parses (strptime : string -> result DateTime.datetime) (f : string) : bool :=
  match strptime (Str.before_dot f) with
  | Ok _ => true
  | Raise _ => false
  end.
Definition stamp (strptime : string -> result DateTime.datetime) (f : string)
  : DateTime.datetime :=
  match strptime (Str.before_dot f) with
  | Ok t => t
  | Raise _ => 0%Z
  end.

(** The uploads that number the files [names] of [folder] from
    [start_index], in their order: the file and its key. *)
Definition numbered (folder sub : string) (start_index : Z) (names : list string)
  : list (string * string) :=
  map (fun kf : nat * string =>
         (path_join folder (snd kf),
          path_join sub (Str.of_int (start_index + Z.of_nat (fst kf)) ++ ".png")))
      (combine (seq 0 (length names)) names).

(** The characters of the decimal text of an int. *)
Definition is_number_char (c : ascii) : bool :=
  existsb (Ascii.eqb c) ["-"; "0"; "1"; "2"; "3"; "4"; "5"; "6"; "7"; "8"; "9"]%char.

Local Close Scope string_scope.

(** A stand-in for strptime with the format of the file names: it answers
    to the names that end in Z, with a time that grows with the last digit
    before the Z. *)
Definition strptime_standin (s : string) : result DateTime.datetime :=
  if ends_in_Z s
  then Ok (Z.of_nat (nat_of_ascii
                       (match String.get (String.length s - 2)%nat s with
                        | Some c => c
                        | None => "0"%char
                        end)))
  else Raise (mk_exn ValueError "time data does not match format").

(* ------------------------------------------------------------------ *)
(** ** src/src/processors/radar_processor.py: class DMIDownloader *)

Module Downloader.

Local Open Scope string_scope.

(** An item of [data['features']]: [feature['properties']['datetime']] and
    [feature['asset']['data']['href']]. *)
Record feature : Type := mk_feature { datetime : string; href : string }.

(** The name under which the file of a feature is stored. *)
Definition file_name_of (file_datetime : string) : string :=
  let file_datetime := Str.replace ":" "-" file_datetime in
  let file_name := file_datetime ++ ".h5" in
  Utils.sanitize_filename file_name.

Section DMIDownloader.

(** [int(s)] on a string. *)
Variable int_of_str : string -> result Z.

(** [self.config.h5_folder] *)
Variable h5_folder : string.

(** [self.download_file(url, output_path)] with its retries: it returns when
    the file has been written, and raises otherwise. *)
Variable download_file : string -> string -> result unit.

(** [os.remove] succeeds on this entry of the folder. *)
Variable removable : string -> bool.

Definition should_skip_file (file_datetime : string) : result bool :=
  minute <- int_of_str (substring 14 2 file_datetime) ;;
  Ok (minute mod 10 =? 5)%Z.

(** The loop of download_hdf5_files over the features left. [folder] is the
    set of the names in h5_folder, so that [os.path.exists(output_path)] is
    the membership of the name. *)
Fixpoint download_loop (features : list feature)
    (folder fetched_files downloaded_paths : list string)
  : result (list string * list string * list string) :=
  match features with
  | [] => Ok (folder, fetched_files, downloaded_paths)
  | f :: rest =>
      skip <- should_skip_file (datetime f) ;;
      if skip : bool then download_loop rest folder fetched_files downloaded_paths
      else
        let sanitized_file_name := file_name_of (datetime f) in
        let output_path := path_join h5_folder sanitized_file_name in
        let fetched_files := sanitized_file_name :: fetched_files in
        if existsb (String.eqb sanitized_file_name) folder
        then download_loop rest folder fetched_files
                           (downloaded_paths ++ [output_path])
        else
          _ <- download_file (href f) output_path ;;
          download_loop rest (sanitized_file_name :: folder) fetched_files
                        (downloaded_paths ++ [output_path])
  end.

(** The names left in the folder by [_cleanup_old_files(current_files)]. *)
Definition cleanup_old_files (folder current_files : list string) : list string :=
  filter (fun file => existsb (String.eqb file) current_files || negb (removable file))
         folder.

(** [download_hdf5_files] on the features of the feed and the names in the
    folder: the paths it returns and the names in the folder afterwards. *)
Definition download_hdf5_files (features : list feature) (folder : list string)
  : result (list string * list string) :=
  ' (folder, fetched_files, downloaded_paths) <- download_loop features folder [] [] ;;
  Ok (downloaded_paths, cleanup_old_files folder fetched_files).

(** The names of the features that are not skipped, in the order of the feed. *)
Definition kept_names (features : list feature) : list string :=
  map (fun f => file_name_of (datetime f))
      (filter (fun f => match should_skip_file (datetime f) with
                        | Ok false => true
                        | _ => false
                        end) features).

End DMIDownloader.

(** A stand-in for [int]: the value of a string of two decimal digits. *)
Definition int_standin (s : string) : result Z :=
  match s with
  | String a (String b EmptyString) =>
      if ((48 <=? nat_of_ascii a) && (nat_of_ascii a <=? 57)
          && (48 <=? nat_of_ascii b) && (nat_of_ascii b <=? 57))%nat
      then Ok (10 * (Z.of_nat (nat_of_ascii a) - 48) + (Z.of_nat (nat_of_ascii b) - 48))%Z
      else Raise (mk_exn ValueError "invalid literal for int() with base 10")
  | _ => Raise (mk_exn ValueError "invalid literal for int() with base 10")
  end.

End Downloader.

(* ------------------------------------------------------------------ *)
(** ** Lists and arrays *)

Lemma nth_seq_map {A : Type} (f : nat -> A) (n k : nat) (d : A) :
  (k < n)%nat -> nth k (map f (seq 0 n)) d = f k.
Proof.
  intros Hk.
  rewrite (nth_indep _ d (f 0%nat)) by (rewrite length_map, length_seq; exact Hk).
  rewrite (map_nth f (seq 0 n) 0%nat k), seq_nth by exact Hk.
  reflexivity.
Qed.

Lemma length_tabulate (r c : nat) (f : nat -> nat -> Q) :
  length (tabulate r c f) = r.
Proof. unfold tabulate. now rewrite length_map, length_seq. Qed.

Lemma nth_tabulate (r c : nat) (f : nat -> nat -> Q) (i : nat) :
  (i < r)%nat -> nth i (tabulate r c f) [] = map (fun j => f i j) (seq 0 c).
Proof. intros Hi. unfold tabulate. now rewrite nth_seq_map. Qed.

Lemma get_tabulate (t : dtype) (r c : nat) (f : nat -> nat -> Q) (i j : nat) :
  (i < r)%nat -> (j < c)%nat -> get (mk_nd t (tabulate r c f)) i j = f i j.
Proof.
  intros Hi Hj. unfold get. simpl.
  rewrite nth_tabulate by exact Hi. now rewrite nth_seq_map.
Qed.

Lemma nrows_tabulate (t : dtype) (r c : nat) (f : nat -> nat -> Q) :
  nrows (mk_nd t (tabulate r c f)) = r.
Proof. unfold nrows. simpl. apply length_tabulate. Qed.

Lemma ncols_tabulate (t : dtype) (r c : nat) (f : nat -> nat -> Q) :
  ncols (mk_nd t (tabulate r c f)) = match r with O => O | S _ => c end.
Proof.
  unfold ncols, tabulate. simpl. destruct r as [|r]; [reflexivity|].
  simpl. now rewrite length_map, length_seq.
Qed.

Lemma all_cells_tabulate (P : Q -> Prop) (t : dtype) (r c : nat)
    (f : nat -> nat -> Q) :
  (forall i j, (i < r)%nat -> (j < c)%nat -> P (f i j)) ->
  all_cells P (mk_nd t (tabulate r c f)).
Proof.
  intros H. unfold all_cells, tabulate. simpl.
  apply Forall_forall. intros row Hrow.
  apply in_map_iff in Hrow as [i [<- Hi]]. apply in_seq in Hi.
  apply Forall_forall. intros x Hx.
  apply in_map_iff in Hx as [j [<- Hj]]. apply in_seq in Hj.
  apply H; lia.
Qed.

Lemma all_cells_map (P : Q -> Prop) (t : dtype) (g : Q -> Q) (rows : list (list Q)) :
  (forall x, P (g x)) -> all_cells P (mk_nd t (map (map g) rows)).
Proof.
  intros H. unfold all_cells. simpl.
  apply Forall_forall. intros row Hrow.
  apply in_map_iff in Hrow as [r0 [<- _]].
  apply Forall_forall. intros x Hx.
  apply in_map_iff in Hx as [x0 [<- _]]. apply H.
Qed.

(** A cell of a rectangular array that lies inside its shape is one of its
    cells. *)
Lemma all_cells_get (P : Q -> Prop) (a : ndarray) (i j : nat) :
  rect a -> all_cells P a -> (i < nrows a)%nat -> (j < ncols a)%nat ->
  P (get a i j).
Proof.
  intros Hr Ha Hi Hj. unfold get, all_cells, rect, nrows in *.
  rewrite Forall_forall in Hr, Ha.
  assert (Hin : In (nth i (nd_rows a) []) (nd_rows a)) by (apply nth_In; exact Hi).
  specialize (Hr _ Hin). specialize (Ha _ Hin).
  rewrite Forall_forall in Ha. apply Ha. apply nth_In. lia.
Qed.

Lemma ncols_empty (a : ndarray) : nrows a = 0%nat -> ncols a = 0%nat.
Proof. unfold nrows, ncols. destruct (nd_rows a); [reflexivity | discriminate]. Qed.

Lemma shape_map_cells (t t' : dtype) (g : Q -> Q) (rows : list (list Q)) :
  shape (mk_nd t (map (map g) rows)) = shape (mk_nd t' rows).
Proof.
  unfold shape, nrows, ncols. simpl. rewrite length_map.
  destruct rows; simpl; [reflexivity | now rewrite length_map].
Qed.

Lemma shape_tabulate (t : dtype) (a : ndarray) (f : nat -> nat -> Q) :
  shape (mk_nd t (tabulate (nrows a) (ncols a) f)) = shape a.
Proof.
  unfold shape. rewrite nrows_tabulate, ncols_tabulate.
  destruct (nrows a) eqn:E; [now rewrite (ncols_empty a E) | reflexivity].
Qed.

Lemma combine_map_map {A B C : Type} (f : A -> B) (g : A -> C) (l : list A) :
  combine (map f l) (map g l) = map (fun x => (f x, g x)) l.
Proof. induction l as [|x l IH]; simpl; [reflexivity | now rewrite IH]. Qed.

Lemma map_map_id (rows : list (list Q)) : map (map (fun x : Q => x)) rows = rows.
Proof.
  induction rows as [|r rows IH]; simpl; [reflexivity|].
  now rewrite map_id, IH.
Qed.

Lemma mask_and_mask_of (p q : Q -> bool) (a : ndarray) :
  mask_and (mask_of p a) (mask_of q a) = mask_of (fun x => p x && q x) a.
Proof.
  unfold mask_and, mask_of. rewrite combine_map_map, map_map.
  apply map_ext. intros r. simpl. now rewrite combine_map_map, map_map.
Qed.

(** [a[m] *= k] cell by cell, when the array and the mask are both computed
    from the same rows. *)
Lemma imul_where_cells (f : Q -> Q) (p : Q -> bool) (k : Q) (rows : list (list Q)) :
  imul_where (mk_nd floating (map (map f) rows)) (map (map p) rows) k
  = Ok (mk_nd floating (map (map (fun x => if p x then f x * k else f x)) rows)).
Proof.
  unfold imul_where. simpl. do 2 f_equal.
  rewrite combine_map_map, map_map. apply map_ext. intros r. simpl.
  now rewrite combine_map_map, map_map.
Qed.

Lemma clip1_range (lo hi x : Q) : lo <= hi -> lo <= clip1 lo hi x <= hi.
Proof.
  intros H. unfold clip1. split.
  - apply Q.min_glb; [apply Q.le_max_r | exact H].
  - apply Q.le_min_r.
Qed.

Lemma clip1_id (lo hi x : Q) : lo <= x <= hi -> clip1 lo hi x == x.
Proof.
  intros [H1 H2]. unfold clip1.
  rewrite Q.max_l by exact H1. now rewrite Q.min_l by exact H2.
Qed.

(* ------------------------------------------------------------------ *)
(** ** The evolution model, cell by cell *)

Lemma growth_decay_body_floating (np_exp : Q -> Q) (field : ndarray) (dt : Q) :
  nd_dtype field = floating ->
  growth_decay_body np_exp field dt
  = Ok (mk_nd floating (map (map (evolve_cell np_exp dt)) (nd_rows field))).
Proof.
  intros Hd. unfold growth_decay_body, copy.
  rewrite mask_and_mask_of. unfold mask_of.
  destruct field as [t rows]. simpl in Hd. subst t. simpl nd_rows.
  pose proof (imul_where_cells (fun x => x)
                (fun x => gt 80 x && lt 150 x) (1 + (5 # 100) * dt / 3600) rows) as H1.
  rewrite map_map_id in H1. rewrite H1. cbn [bind].
  rewrite imul_where_cells. cbn [bind].
  unfold apply_precipitation_decay, mul_scalar, clip. simpl.
  do 2 f_equal. rewrite !map_map. apply map_ext. intros r.
  rewrite !map_map. apply map_ext. intros x.
  unfold evolve_cell, in_growth_band, growth_factor, decay_factor.
  destruct (gt 80 x && lt 150 x), (gt 180 x); reflexivity.
Qed.

Lemma growth_decay_body_uint8 (np_exp : Q -> Q) (field : ndarray) (dt : Q) :
  nd_dtype field = uint8 -> growth_decay_body np_exp field dt = Raise cast_error.
Proof.
  intros Hd. unfold growth_decay_body, copy, imul_where. now rewrite Hd.
Qed.

Lemma apply_growth_decay_model_floating (np_exp : Q -> Q) (field : ndarray) (dt : Q) :
  nd_dtype field = floating ->
  apply_growth_decay_model np_exp field dt
  = Ok (mk_nd floating (map (map (evolve_cell np_exp dt)) (nd_rows field))).
Proof.
  intros Hd. unfold apply_growth_decay_model.
  now rewrite growth_decay_body_floating by exact Hd.
Qed.

Lemma evolve_cell_range (np_exp : Q -> Q) (dt x : Q) :
  0 <= evolve_cell np_exp dt x <= 255.
Proof. unfold evolve_cell. apply clip1_range. lra. Qed.

Lemma gt_true (k x : Q) : gt k x = true <-> k < x.
Proof.
  unfold gt. rewrite negb_true_iff. split; intros H.
  - apply Qnot_le_lt. intros Hle. apply Qle_bool_iff in Hle. congruence.
  - destruct (Qle_bool x k) eqn:E; [|reflexivity].
    apply Qle_bool_iff in E. lra.
Qed.

Lemma lt_true (k x : Q) : lt k x = true <-> x < k.
Proof.
  unfold lt. rewrite negb_true_iff. split; intros H.
  - apply Qnot_le_lt. intros Hle. apply Qle_bool_iff in Hle. congruence.
  - destruct (Qle_bool k x) eqn:E; [|reflexivity].
    apply Qle_bool_iff in E. lra.
Qed.

Lemma gt_false (k x : Q) : gt k x = false <-> x <= k.
Proof.
  unfold gt. rewrite negb_false_iff. apply Qle_bool_iff.
Qed.

(** Up to four hours per step the growth factor is at most 1.2, a cell of
    the growth band stays at or below 180, and testing the decay threshold
    on the input or on the current value makes no difference. *)
Lemma evolve_cell_sequential (np_exp : Q -> Q) (dt x : Q) :
  dt <= 14400 -> evolve_cell np_exp dt x = sequential_cell np_exp dt x.
Proof.
  intros Hdt. unfold evolve_cell, sequential_cell.
  destruct (in_growth_band x) eqn:Hg; [|reflexivity].
  unfold in_growth_band in Hg. apply andb_true_iff in Hg as [H80 H150].
  apply gt_true in H80. apply lt_true in H150.
  assert (Hx : gt 180 x = false) by (apply gt_false; lra).
  assert (Hr : gt 180 (x * growth_factor dt) = false).
  { apply gt_false. unfold growth_factor.
    assert (Hg : (5 # 100) * dt / 3600 <= 1 # 5)
      by (apply Qle_shift_div_r; [reflexivity | lra]).
    nra. }
  now rewrite Hx, Hr.
Qed.

(* ------------------------------------------------------------------ *)
(** ** Bilinear resampling *)

Lemma tabulate_ext (r c : nat) (f g : nat -> nat -> Q) :
  (forall i j, (i < r)%nat -> (j < c)%nat -> f i j = g i j) ->
  tabulate r c f = tabulate r c g.
Proof.
  intros H. unfold tabulate.
  apply map_ext_in. intros i Hi. apply in_seq in Hi.
  apply map_ext_in. intros j Hj. apply in_seq in Hj.
  apply H; lia.
Qed.

Lemma tabulate_cols (r c : nat) (f : nat -> nat -> Q) :
  tabulate r (match r with O => O | S _ => c end) f = tabulate r c f.
Proof. destruct r; reflexivity. Qed.

Lemma map_cells_tabulate (g : Q -> Q) (r c : nat) (f : nat -> nat -> Q) :
  map (map g) (tabulate r c f) = tabulate r c (fun i j => g (f i j)).
Proof.
  unfold tabulate. rewrite map_map. apply map_ext. intros i. now rewrite map_map.
Qed.

Lemma bget_inside (a : ndarray) (i j : nat) :
  (i < nrows a)%nat -> (j < ncols a)%nat -> bget a i j = get a i j.
Proof.
  intros Hi Hj. unfold bget.
  destruct (nrows a =? 1)%nat eqn:Er; destruct (ncols a =? 1)%nat eqn:Ec;
    try apply Nat.eqb_eq in Er; try apply Nat.eqb_eq in Ec;
    f_equal; lia.
Qed.

(** A cell read with [get] is a cell of the array, or the default 0. *)
Lemma get_cases (P : Q -> Prop) (a : ndarray) (i j : nat) :
  all_cells P a -> P 0 -> P (get a i j).
Proof.
  intros Ha H0. unfold get, all_cells in *.
  destruct (nth_in_or_default i (nd_rows a) []) as [Hin | ->].
  - rewrite Forall_forall in Ha. specialize (Ha _ Hin).
    destruct (nth_in_or_default j (nth i (nd_rows a) []) 0) as [Hj | ->];
      [|exact H0].
    rewrite Forall_forall in Ha. now apply Ha.
  - destruct j; exact H0.
Qed.

Lemma bdim_same (n : nat) : bdim n n = Some n.
Proof. unfold bdim. now rewrite Nat.eqb_refl. Qed.

Lemma bdim_pos (m n k : nat) : bdim m n = Some k -> (0 < k)%nat -> (0 < m)%nat.
Proof.
  unfold bdim.
  destruct (m =? n)%nat eqn:E1; [intros [= <-]; lia|].
  destruct (m =? 1)%nat eqn:E2; [apply Nat.eqb_eq in E2; lia|].
  destruct (n =? 1)%nat eqn:E3; [intros [= <-]; lia | discriminate].
Qed.

Lemma frac_range (x : Q) :
  0 <= x - inject_Z (Qfloor x) /\ x - inject_Z (Qfloor x) <= 1.
Proof.
  pose proof (Qfloor_le x) as H1. pose proof (Qlt_floor x) as H2.
  rewrite inject_Z_plus in H2. change (inject_Z 1) with 1 in H2.
  split; lra.
Qed.

Lemma floor_index (x : Q) (n : nat) :
  0 <= x <= inject_Z (Z.of_nat n - 1) ->
  (0 <= Qfloor x <= Z.of_nat n - 1)%Z.
Proof.
  intros [H0 H1]. split.
  - change 0%Z with (Qfloor 0). now apply Qfloor_resp_le.
  - rewrite <- (Qfloor_Z (Z.of_nat n - 1)). now apply Qfloor_resp_le.
Qed.

Lemma pixel_inside (src : ndarray) (y x : Z) :
  (0 <= y < Z.of_nat (nrows src))%Z -> (0 <= x < Z.of_nat (ncols src))%Z ->
  Cv.pixel src y x = get src (Z.to_nat y) (Z.to_nat x).
Proof.
  intros [Hy0 Hy1] [Hx0 Hx1]. unfold Cv.pixel.
  apply Z.leb_le in Hy0, Hx0. apply Z.ltb_lt in Hy1, Hx1.
  now rewrite Hy0, Hy1, Hx0, Hx1.
Qed.

Lemma weighted_bound (w b lo hi : Q) :
  0 <= w -> (w == 0 \/ lo <= b <= hi) -> w * lo <= w * b <= w * hi.
Proof. intros Hw [H | H]; [rewrite H; lra | nra]. Qed.

Lemma convex4 (w1 w2 w3 w4 a b c d lo hi : Q) :
  w1 + w2 + w3 + w4 == 1 ->
  w1 * lo <= w1 * a <= w1 * hi -> w2 * lo <= w2 * b <= w2 * hi ->
  w3 * lo <= w3 * c <= w3 * hi -> w4 * lo <= w4 * d <= w4 * hi ->
  lo <= w1 * a + w2 * b + w3 * c + w4 * d <= hi.
Proof. intros. nra. Qed.

(** Inside the grid, the next pixel along an axis is inside the grid too, or
    the point sits on the last pixel and the next one has weight zero. *)
Lemma next_pixel (x : Q) (n : nat) :
  0 <= x <= inject_Z (Z.of_nat n - 1) ->
  x - inject_Z (Qfloor x) == 0 \/ (0 <= Qfloor x + 1 < Z.of_nat n)%Z.
Proof.
  intros Hx. pose proof (floor_index x n Hx) as [Hf0 Hf1].
  destruct (Z.eq_dec (Qfloor x) (Z.of_nat n - 1)) as [E | E].
  - left. pose proof (Qfloor_le x) as Hle. rewrite E in *. lra.
  - right. lia.
Qed.

(** Sampling inside the grid yields a convex combination of source values. *)
Lemma bilinear_range (src : ndarray) (lo hi x y : Q) :
  rect src -> all_cells (fun q => lo <= q <= hi) src ->
  0 <= x <= inject_Z (Z.of_nat (ncols src) - 1) ->
  0 <= y <= inject_Z (Z.of_nat (nrows src) - 1) ->
  lo <= Cv.bilinear src x y <= hi.
Proof.
  intros Hrect Hall Hx Hy.
  pose proof (floor_index x _ Hx) as Hx0. pose proof (floor_index y _ Hy) as Hy0.
  pose proof (frac_range x) as [Hfx0 Hfx1]. pose proof (frac_range y) as [Hfy0 Hfy1].
  pose proof (next_pixel x _ Hx) as Hnx. pose proof (next_pixel y _ Hy) as Hny.
  assert (Hin : forall yy xx, (0 <= yy < Z.of_nat (nrows src))%Z ->
                              (0 <= xx < Z.of_nat (ncols src))%Z ->
                              lo <= Cv.pixel src yy xx <= hi).
  { intros yy xx Hyy Hxx. rewrite pixel_inside by assumption.
    apply (all_cells_get (fun q => lo <= q <= hi) src); try assumption; lia. }
  unfold Cv.bilinear. cbv zeta.
  set (fx := x - inject_Z (Qfloor x)) in *.
  set (fy := y - inject_Z (Qfloor y)) in *.
  apply convex4.
  - ring.
  - apply weighted_bound; [nra | right; apply Hin; lia].
  - apply weighted_bound; [nra|].
    destruct Hnx as [Hz | Hz]; [left; rewrite Hz; ring | right; apply Hin; lia].
  - apply weighted_bound; [nra|].
    destruct Hny as [Hz | Hz]; [left; rewrite Hz; ring | right; apply Hin; lia].
  - apply weighted_bound; [nra|].
    destruct Hnx as [Hz | Hz]; [left; rewrite Hz; ring|].
    destruct Hny as [Hz' | Hz']; [left; rewrite Hz'; ring | right; apply Hin; lia].
Qed.


(* ------------------------------------------------------------------ *)
(** ** The advector *)

Lemma Forall2_by_nth {A B : Type} (R : A -> B -> Prop) (d1 : A) (d2 : B)
    (l1 : list A) (l2 : list B) :
  length l1 = length l2 ->
  (forall i, (i < length l1)%nat -> R (nth i l1 d1) (nth i l2 d2)) ->
  Forall2 R l1 l2.
Proof.
  revert l2. induction l1 as [|x l1 IH]; intros [|y l2] Hlen H;
    try discriminate; constructor.
  - apply (H 0%nat). simpl. lia.
  - apply IH; [simpl in Hlen; lia|].
    intros i Hi. apply (H (S i)). simpl. lia.
Qed.


Lemma shape_mgrid_x (a : ndarray) : shape (mgrid_x (nrows a) (ncols a)) = shape a.
Proof. apply shape_tabulate. Qed.

Lemma shape_mgrid_y (a : ndarray) : shape (mgrid_y (nrows a) (ncols a)) = shape a.
Proof. apply shape_tabulate. Qed.

Lemma shape_mul_scalar (a : ndarray) (k : Q) : shape (mul_scalar a k) = shape a.
Proof. destruct a. apply shape_map_cells. Qed.

Lemma shape_eq (a b : ndarray) :
  shape a = shape b <-> nrows a = nrows b /\ ncols a = ncols b.
Proof. unfold shape. split; [intros [= -> ->]; now split | intros [-> ->]; reflexivity]. Qed.

Lemma sub_same_shape (a b : ndarray) :
  shape b = shape a ->
  sub a b = Ok (mk_nd floating
                  (tabulate (nrows a) (ncols a) (fun i j => get a i j - get b i j))).
Proof.
  intros Hs. apply shape_eq in Hs as [Hr Hc]. unfold sub.
  rewrite Hr, Hc, !bdim_same. do 2 f_equal.
  apply tabulate_ext. intros i j Hi Hj.
  rewrite !bget_inside by lia. reflexivity.
Qed.

(** With a velocity field of the shape of the field, advection succeeds and
    resamples the field at the clipped origin of every cell. *)
Lemma advect_field_same_shape (field u v : ndarray) (dt : Q) :
  shape u = shape field -> shape v = shape field ->
  advect_field field u v dt
  = Ok (mk_nd floating
          (tabulate (nrows field) (ncols field)
             (fun i j => Cv.bilinear (astype floating field)
                           (back_x field u dt i j) (back_y field v dt i j)))).
Proof.
  intros Hu Hv. unfold advect_field, advect_body.
  pose proof (shape_mgrid_x field) as Hsx. pose proof (shape_mgrid_y field) as Hsy.
  rewrite (sub_same_shape (mgrid_x _ _) (mul_scalar u dt))
    by (now rewrite shape_mul_scalar, Hsx).
  rewrite (sub_same_shape (mgrid_y _ _) (mul_scalar v dt))
    by (now rewrite shape_mul_scalar, Hsy).
  apply shape_eq in Hsx as [Hxr Hxc]. apply shape_eq in Hsy as [Hyr Hyc].
  rewrite Hxr, Hxc, Hyr, Hyc. cbn [bind try_except].
  unfold clip. cbn [nd_dtype nd_rows]. rewrite !map_cells_tabulate.
  unfold Cv.remap. rewrite !nrows_tabulate, !ncols_tabulate, !Nat.eqb_refl.
  cbn [andb try_except]. rewrite tabulate_cols. do 2 f_equal.
  apply tabulate_ext. intros i j Hi Hj.
  rewrite !get_tabulate by assumption.
  unfold back_x, back_y, mgrid_x, mgrid_y.
  rewrite !get_tabulate by assumption. reflexivity.
Qed.

Lemma advect_field_ok (field u v : ndarray) (dt : Q) (out : ndarray) :
  advect_field field u v dt = Ok out -> advect_body field u v dt = Ok out.
Proof.
  unfold advect_field, try_except.
  destruct (advect_body field u v dt); [trivial | discriminate].
Qed.

Lemma advect_field_floating (field u v : ndarray) (dt : Q) (out : ndarray) :
  advect_field field u v dt = Ok out -> nd_dtype out = floating.
Proof.
  intros H. apply advect_field_ok in H. unfold advect_body in H.
  destruct (sub (mgrid_x _ _) _); [|discriminate].
  destruct (sub (mgrid_y _ _) _); [|discriminate].
  cbn [bind] in H. unfold Cv.remap in H.
  destruct (_ && _)%bool; [|discriminate].
  now injection H as <-.
Qed.

(** Whatever the velocity field, a value that advection produces lies
    between the bounds of the input values. *)
Lemma advect_field_range (field u v : ndarray) (dt lo hi : Q) (out : ndarray) :
  rect field -> all_cells (fun q => lo <= q <= hi) field ->
  advect_field field u v dt = Ok out ->
  all_cells (fun q => lo <= q <= hi) out.
Proof.
  intros Hrect Hall H. apply advect_field_ok in H.
  unfold advect_body, sub in H.
  destruct (bdim (nrows (mgrid_x _ _)) _) as [R|] eqn:ER; [|discriminate].
  destruct (bdim (ncols (mgrid_x _ _)) _) as [C|] eqn:EC; [|discriminate].
  destruct (bdim (nrows (mgrid_y _ _)) _) as [R'|] eqn:ER'; [|discriminate].
  destruct (bdim (ncols (mgrid_y _ _)) _) as [C'|] eqn:EC'; [|discriminate].
  cbn [bind] in H. unfold Cv.remap in H.
  destruct (_ && _)%bool; [|discriminate].
  injection H as <-.
  apply all_cells_tabulate. intros i j Hi Hj.
  unfold clip in Hi, Hj. cbn [nd_dtype nd_rows] in Hi, Hj.
  rewrite map_cells_tabulate in Hi, Hj.
  rewrite nrows_tabulate in Hi. rewrite ncols_tabulate in Hj.
  assert (HR : (0 < R)%nat) by lia.
  assert (HC : (0 < C)%nat) by (destruct R; lia).
  apply (bdim_pos _ _ _ ER) in HR. apply (bdim_pos _ _ _ EC) in HC.
  unfold mgrid_x in HR, HC. rewrite nrows_tabulate in HR.
  rewrite ncols_tabulate in HC.
  assert (Hc : (0 < ncols field)%nat) by (destruct (nrows field); lia).
  assert (Hcmax : 0 <= inject_Z (Z.of_nat (ncols field) - 1))
    by (change 0 with (inject_Z 0); rewrite <- Zle_Qle; lia).
  assert (Hrmax : 0 <= inject_Z (Z.of_nat (nrows field) - 1))
    by (change 0 with (inject_Z 0); rewrite <- Zle_Qle; lia).
  apply bilinear_range.
  - exact Hrect.
  - exact Hall.
  - apply (get_cases (fun q => 0 <= q <= inject_Z (Z.of_nat (ncols field) - 1))).
    + apply all_cells_map. intros x. now apply clip1_range.
    + split; [lra | exact Hcmax].
  - apply (get_cases (fun q => 0 <= q <= inject_Z (Z.of_nat (nrows field) - 1))).
    + apply all_cells_map. intros x. now apply clip1_range.
    + split; [lra | exact Hrmax].
Qed.

(* ------------------------------------------------------------------ *)
(** ** The motion estimator *)

Lemma length_set_nth {A : Type} (l : list A) (n : nat) (x : A) :
  length (set_nth l n x) = length l.
Proof.
  revert n. induction l as [|h t IH]; intros [|n]; simpl; auto.
Qed.

Lemma nth_set_nth_same {A : Type} (l : list A) (n : nat) (x d : A) :
  (n < length l)%nat -> nth n (set_nth l n x) d = x.
Proof.
  revert n. induction l as [|h t IH]; intros [|n] H; simpl in *; try lia; auto.
  apply IH. lia.
Qed.

Lemma nth_set_nth_other {A : Type} (l : list A) (n m : nat) (x d : A) :
  n <> m -> nth m (set_nth l n x) d = nth m l d.
Proof.
  revert n m. induction l as [|h t IH]; intros [|n] [|m] H; simpl; auto; try lia.
Qed.

Lemma setitem_shape (a : ndarray) (i j : nat) (x : Q) (a' : ndarray) :
  setitem a i j x = Ok a' -> shape a' = shape a /\ nd_dtype a' = nd_dtype a.
Proof.
  unfold setitem. destruct (_ && _)%bool eqn:E; [|discriminate].
  intros [= <-]. split; [|reflexivity].
  apply andb_true_iff in E as [Ei Ej].
  apply Nat.ltb_lt in Ei. apply Nat.ltb_lt in Ej.
  unfold shape, nrows, ncols in *. cbn [nd_rows].
  rewrite length_set_nth. f_equal.
  destruct (nd_rows a) as [|r0 rows]; [reflexivity|].
  destruct i; simpl; [apply length_set_nth | reflexivity].
Qed.

(** Cells of the array after [a[i, j] = x]. *)
Lemma setitem_get (a : ndarray) (i j : nat) (x : Q) (a' : ndarray) (i' j' : nat) :
  setitem a i j x = Ok a' ->
  get a' i' j' = if ((i' =? i) && (j' =? j))%nat then x else get a i' j'.
Proof.
  unfold setitem. destruct (_ && _)%bool eqn:E; [|discriminate].
  intros [= <-]. apply andb_true_iff in E as [Ei Ej].
  apply Nat.ltb_lt in Ei. apply Nat.ltb_lt in Ej.
  unfold get, nrows in *. cbn [nd_rows].
  destruct (Nat.eqb_spec i' i) as [-> | Hi]; cbn [andb].
  - rewrite nth_set_nth_same by exact Ei.
    destruct (Nat.eqb_spec j' j) as [-> | Hj].
    + now apply nth_set_nth_same.
    + apply nth_set_nth_other. congruence.
  - rewrite nth_set_nth_other by congruence. reflexivity.
Qed.

Lemma scatter_flow_shape (frame1 : ndarray) (flow : list (Q * Q)) :
  forall (i : nat) (u v u' v' : ndarray),
    scatter_flow frame1 i flow u v = Ok (u', v') ->
    (shape u' = shape u /\ nd_dtype u' = nd_dtype u)
    /\ (shape v' = shape v /\ nd_dtype v' = nd_dtype v).
Proof.
  induction flow as [|[x y] rest IH]; intros i u v u' v' H;
    cbn [scatter_flow] in H.
  - injection H as <- <-. auto.
  - destruct (ncols frame1 / 10 =? 0)%nat; [discriminate|].
    destruct (_ && _)%bool.
    + destruct (setitem u _ _ _) as [u1|] eqn:Eu; [|discriminate].
      destruct (setitem v _ _ _) as [v1|] eqn:Ev; [|discriminate].
      cbn [bind] in H. apply IH in H as [[H1 H2] [H3 H4]].
      apply setitem_shape in Eu as [Eu1 Eu2].
      apply setitem_shape in Ev as [Ev1 Ev2].
      repeat split; congruence.
    + now apply IH in H.
Qed.

Lemma full_zeros_like (frame1 : ndarray) :
  rect frame1 -> full (zeros_like frame1) (nrows frame1) (ncols frame1).
Proof.
  intros Hrect. unfold full, zeros_like, nrows. cbn [nd_rows].
  split; [apply length_map|]. intros i Hi.
  change (@nil Q) with (map (fun _ : Q => 0) []). rewrite map_nth, length_map.
  unfold rect in Hrect. rewrite Forall_forall in Hrect.
  apply Hrect. now apply nth_In.
Qed.

Lemma get_zeros_like (frame1 : ndarray) (i j : nat) : get (zeros_like frame1) i j = 0.
Proof.
  apply (get_cases (fun q => q = 0)); [|reflexivity].
  unfold zeros_like. now apply all_cells_map.
Qed.

Lemma setitem_full (a : ndarray) (h w i j : nat) (x : Q) :
  full a h w -> (i < h)%nat -> (j < w)%nat ->
  exists a', setitem a i j x = Ok a' /\ full a' h w.
Proof.
  intros [Hr Hc] Hi Hj. unfold setitem.
  assert (E : ((i <? nrows a) && (j <? length (nth i (nd_rows a) [])))%nat = true).
  { apply andb_true_iff. split; apply Nat.ltb_lt; [lia | rewrite Hc; lia]. }
  rewrite E. eexists. split; [reflexivity|].
  unfold full, nrows in *. cbn [nd_rows]. rewrite length_set_nth.
  split; [exact Hr|]. intros i' Hi'.
  destruct (Nat.eq_dec i i') as [<- | Hne].
  - rewrite nth_set_nth_same by lia. rewrite length_set_nth. now apply Hc.
  - rewrite nth_set_nth_other by exact Hne. now apply Hc.
Qed.

Lemma cell_of_inj (m k k' : nat) : (0 < m)%nat -> cell_of m k = cell_of m k' -> k = k'.
Proof.
  intros Hm [= H1 H2].
  rewrite (Nat.div_mod_eq k m), (Nat.div_mod_eq k' m). nia.
Qed.

Lemma scatter_flow_cells (frame1 : ndarray) (m : nat) :
  ncols frame1 = (10 * m)%nat -> (0 < m)%nat ->
  forall (flow : list (Q * Q)) (i : nat) (u v : ndarray),
    full u (nrows frame1) (ncols frame1) ->
    full v (nrows frame1) (ncols frame1) ->
    (forall k, (k < length flow)%nat -> (fst (cell_of m (i + k)) < nrows frame1)%nat) ->
    exists u' v',
      scatter_flow frame1 i flow u v = Ok (u', v')
      /\ (forall k x y, nth_error flow k = Some (x, y) ->
            get u' (fst (cell_of m (i + k))) (snd (cell_of m (i + k)))
            = x - Qnat (snd (cell_of m (i + k)))
            /\ get v' (fst (cell_of m (i + k))) (snd (cell_of m (i + k)))
               = y - Qnat (fst (cell_of m (i + k))))
      /\ (forall a b,
            (forall k, (k < length flow)%nat -> (a, b) <> cell_of m (i + k)) ->
            get u' a b = get u a b /\ get v' a b = get v a b).
Proof.
  intros Hw Hm. assert (Hdiv : (ncols frame1 / 10 = m)%nat)
    by (rewrite Hw, Nat.mul_comm; now apply Nat.div_mul).
  induction flow as [|[x y] rest IH]; intros i u v Hu Hv Hrows.
  - exists u, v. split; [reflexivity|]. split.
    + intros [|k] ? ? H; discriminate H.
    + auto.
  - cbn [scatter_flow]. rewrite Hdiv.
    destruct (m =? 0)%nat eqn:Em; [apply Nat.eqb_eq in Em; lia|].
    pose proof (Hrows 0%nat ltac:(simpl; lia)) as Hy. rewrite Nat.add_0_r in Hy.
    cbn [cell_of fst] in Hy.
    assert (Hx : (i mod m * 10 < ncols frame1)%nat).
    { pose proof (Nat.mod_upper_bound i m). lia. }
    assert (E : ((i / m * 10 <? nrows frame1) && (i mod m * 10 <? ncols frame1))%nat
                = true)
      by (apply andb_true_iff; split; now apply Nat.ltb_lt).
    rewrite E.
    destruct (setitem_full u _ _ _ _ (x - Qnat (i mod m * 10)) Hu Hy Hx)
      as [u1 [Eu Hu1]].
    destruct (setitem_full v _ _ _ _ (y - Qnat (i / m * 10)) Hv Hy Hx)
      as [v1 [Ev Hv1]].
    rewrite Eu, Ev. cbn [bind].
    destruct (IH (S i) u1 v1 Hu1 Hv1) as [u' [v' [Es [Hset Hkeep]]]].
    { intros k Hk. rewrite Nat.add_succ_comm. apply Hrows. simpl. lia. }
    exists u', v'. split; [exact Es|]. split.
    + intros [|k] x' y' Hk.
      * injection Hk as <- <-. rewrite Nat.add_0_r. cbn [cell_of fst snd].
        destruct (Hkeep (i / m * 10)%nat (i mod m * 10)%nat) as [K1 K2].
        { intros k Hk E'. apply (cell_of_inj m i (S i + k) Hm) in E'. lia. }
        rewrite K1, K2, (setitem_get _ _ _ _ _ _ _ Eu), (setitem_get _ _ _ _ _ _ _ Ev).
        now rewrite !Nat.eqb_refl.
      * rewrite <- Nat.add_succ_comm. now apply Hset.
    + intros a b Hab.
      destruct (Hkeep a b) as [K1 K2].
      { intros k Hk. rewrite Nat.add_succ_comm. apply Hab. simpl. lia. }
      rewrite K1, K2, (setitem_get _ _ _ _ _ _ _ Eu), (setitem_get _ _ _ _ _ _ _ Ev).
      specialize (Hab 0%nat ltac:(simpl; lia)). rewrite Nat.add_0_r in Hab.
      unfold cell_of in Hab.
      destruct (Nat.eqb_spec a (i / m * 10)) as [-> | Ha];
        destruct (Nat.eqb_spec b (i mod m * 10)) as [-> | Hb];
        cbn [andb]; try (split; reflexivity).
      now contradiction Hab.
Qed.

Lemma length_range10 (n : nat) : length (range10 n) = ((n + 9) / 10)%nat.
Proof. unfold range10. now rewrite length_map, length_seq. Qed.

Lemma nth_error_range10 (n j : nat) :
  (j < (n + 9) / 10)%nat -> nth_error (range10 n) j = Some (j * 10)%nat.
Proof.
  intros Hj. unfold range10. rewrite nth_error_map, nth_error_seq.
  apply Nat.ltb_lt in Hj. now rewrite Hj.
Qed.

Lemma nth_error_grid {A B C : Type} (g : A -> B -> C) (xs : list B) (m : nat) :
  length xs = m -> (0 < m)%nat ->
  forall (ys : list A) (k : nat) (y : A) (x : B),
    nth_error ys (k / m) = Some y -> nth_error xs (k mod m) = Some x ->
    nth_error (flat_map (fun y => map (g y) xs) ys) k = Some (g y x).
Proof.
  intros Hlen Hm. induction ys as [|y0 ys IH]; intros k y x Hy Hx.
  - destruct (k / m)%nat; discriminate Hy.
  - cbn [flat_map]. destruct (Nat.lt_ge_cases k m) as [Hk | Hk].
    + rewrite Nat.div_small in Hy by exact Hk.
      rewrite Nat.mod_small in Hx by exact Hk. injection Hy as ->.
      rewrite nth_error_app1 by (rewrite length_map; lia).
      now rewrite nth_error_map, Hx.
    + rewrite nth_error_app2 by (rewrite length_map; lia).
      rewrite length_map, Hlen.
      assert (Ek : k = (k - m + 1 * m)%nat) by lia.
      rewrite Ek, Nat.div_add in Hy by lia. rewrite Ek, Nat.Div0.mod_add in Hx.
      rewrite Nat.add_1_r in Hy. cbn [nth_error] in Hy.
      now apply IH.
Qed.

Lemma length_grid {A B C : Type} (g : A -> B -> C) (xs : list B) (ys : list A) :
  length (flat_map (fun y => map (g y) xs) ys) = (length ys * length xs)%nat.
Proof.
  induction ys as [|y ys IH]; [reflexivity|].
  cbn [flat_map]. rewrite length_app, length_map, IH. simpl. lia.
Qed.

Section MotionEstimator.

Variable calcOpticalFlowPyrLK :
  ndarray -> ndarray -> list (Q * Q) -> result (list (Q * Q)).
Variable gaussian_filter : list (list Q) -> Q -> list (list Q).

(** The Gaussian filter returns an array of the shape of its argument. *)
Hypothesis gaussian_filter_shape :
  forall (a : ndarray) (sigma : Q), shape (smooth gaussian_filter a sigma) = shape a.

Local Abbreviation optical_flow := (calculate_optical_flow calcOpticalFlowPyrLK gaussian_filter).

Lemma calculate_optical_flow_shape (frame1 frame2 u v : ndarray) :
  optical_flow frame1 frame2 = Ok (u, v) ->
  (shape u = shape frame1 /\ nd_dtype u = floating)
  /\ (shape v = shape frame1 /\ nd_dtype v = floating).
Proof.
  unfold calculate_optical_flow, try_except.
  destruct (calcOpticalFlowPyrLK _ _ _) as [flow|]; [|discriminate].
  cbn [bind]. unfold velocity_samples.
  destruct (scatter_flow _ _ _ _ _) as [[u0 v0]|] eqn:E; [|discriminate].
  cbn [bind]. intros [= <- <-].
  apply scatter_flow_shape in E as [[H1 H2] [H3 H4]].
  rewrite !gaussian_filter_shape. unfold smooth. cbn [nd_dtype].
  assert (Hz : shape (zeros_like frame1) = shape frame1)
    by (destruct frame1; apply shape_map_cells).
  assert (Hd : nd_dtype (zeros_like frame1) = floating) by reflexivity.
  repeat split; congruence.
Qed.

End MotionEstimator.

(* ------------------------------------------------------------------ *)
(** ** The velocity aggregator *)

Lemma cell_sum_app (l : list ndarray) (a : ndarray) (i j : nat) :
  cell_sum (l ++ [a]) i j == cell_sum l i j + get a i j.
Proof.
  induction l as [|b l IH]; simpl; [ring | rewrite IH; ring].
Qed.

Lemma get_map_cells (t t' : dtype) (g : Q -> Q) (rows : list (list Q)) (i j : nat) :
  g 0 == 0 ->
  get (mk_nd t (map (map g) rows)) i j == g (get (mk_nd t' rows) i j).
Proof.
  intros Hg. unfold get. cbn [nd_rows].
  change (@nil Q) with (map g []) at 1. rewrite map_nth.
  destruct (Nat.lt_ge_cases j (length (nth i rows []))) as [Hj | Hj].
  - rewrite (nth_indep _ 0 (g 0)) by (now rewrite length_map).
    rewrite map_nth. reflexivity.
  - rewrite !nth_overflow by (try rewrite length_map; exact Hj).
    now rewrite Hg.
Qed.

Lemma get_div_scalar (a : ndarray) (k : Q) (i j : nat) :
  get (div_scalar a k) i j == get a i j / k.
Proof.
  destruct a as [t rows]. unfold div_scalar. cbn [nd_rows].
  apply (get_map_cells floating t (fun x => x / k)). unfold Qdiv. ring.
Qed.

Lemma shape_div_scalar (a : ndarray) (k : Q) : shape (div_scalar a k) = shape a.
Proof. destruct a. apply shape_map_cells. Qed.

Lemma iadd_same_shape (a b : ndarray) :
  nd_dtype a = floating -> shape b = shape a ->
  iadd a b = Ok (mk_nd floating
                   (tabulate (nrows a) (ncols a) (fun i j => get a i j + get b i j))).
Proof.
  intros Hd Hs. apply shape_eq in Hs as [Hr Hc]. unfold iadd.
  rewrite Hd, Hr, Hc, !Nat.eqb_refl. cbn [orb andb]. do 2 f_equal.
  apply tabulate_ext. intros i j Hi Hj.
  rewrite bget_inside by lia. reflexivity.
Qed.

Section VelocityAggregator.

Variable calcOpticalFlowPyrLK :
  ndarray -> ndarray -> list (Q * Q) -> result (list (Q * Q)).
Variable gaussian_filter : list (list Q) -> Q -> list (list Q).

Hypothesis gaussian_filter_shape :
  forall (a : ndarray) (sigma : Q), shape (smooth gaussian_filter a sigma) = shape a.

Local Abbreviation optical_flow :=
  (calculate_optical_flow calcOpticalFlowPyrLK gaussian_filter).

Lemma accumulate_pair_inv (r c : nat) (f1 f2 : RadarFrame.t)
    (done : list (ndarray * ndarray)) (st : velocity_acc) :
  shape (RadarFrame.data f1) = (r, c) ->
  acc_inv r c done st ->
  acc_inv r c
    (done ++ match optical_flow (RadarFrame.data f1) (RadarFrame.data f2) with
             | Ok uv => [uv]
             | Raise _ => []
             end)
    (accumulate_pair calcOpticalFlowPyrLK gaussian_filter f1 f2 st).
Proof.
  intros Hf [Hvp Hs]. unfold accumulate_pair.
  destruct (optical_flow _ _) as [[u v]|] eqn:E;
    [|rewrite app_nil_r; now split].
  apply (calculate_optical_flow_shape _ _ gaussian_filter_shape) in E
    as [[Hu Hud] [Hv Hvd]].
  rewrite Hf in Hu, Hv.
  destruct (sums st) as [[U V]|] eqn:Es.
  - destruct Hs as [Hne [[HU HUd] [[HV HVd] Hcells]]].
    rewrite (iadd_same_shape U u) by congruence.
    rewrite (iadd_same_shape V v) by congruence.
    assert (HUr : nrows U = r /\ ncols U = c)
      by (unfold shape in HU; injection HU; auto).
    assert (HVr : nrows V = r /\ ncols V = c)
      by (unfold shape in HV; injection HV; auto).
    destruct HUr as [HUr HUc]. destruct HVr as [HVr HVc].
    split; cbn [valid_pairs sums].
    + rewrite length_app. simpl. lia.
    + split; [now destruct done|].
      split; [split; [now rewrite shape_tabulate | reflexivity]|].
      split; [split; [now rewrite shape_tabulate | reflexivity]|].
      intros i j Hi Hj. rewrite !map_app. cbn [map fst snd].
      rewrite !cell_sum_app, !get_tabulate by lia.
      destruct (Hcells i j Hi Hj) as [H1 H2]. rewrite H1, H2. split; reflexivity.
  - subst done. cbn [length] in Hvp. split; cbn [valid_pairs sums app length].
    + lia.
    + split; [discriminate|]. unfold copy.
      split; [now split|]. split; [now split|].
      intros i j _ _. cbn [map fst snd cell_sum fold_right]. split; ring.
Qed.

Lemma velocity_loop_inv (r c : nat) (frames : list RadarFrame.t) :
  Forall (fun f => shape (RadarFrame.data f) = (r, c)) frames ->
  forall (done : list (ndarray * ndarray)) (st : velocity_acc),
    acc_inv r c done st ->
    acc_inv r c (done ++ successful_estimates calcOpticalFlowPyrLK gaussian_filter frames)
            (velocity_loop calcOpticalFlowPyrLK gaussian_filter frames st).
Proof.
  induction frames as [|f1 rest IH]; intros Hall done st Hinv.
  - simpl. now rewrite app_nil_r.
  - destruct rest as [|f2 tl].
    + simpl. now rewrite app_nil_r.
    + inversion Hall as [|? ? Hf1 Hrest]; subst.
      cbn [velocity_loop successful_estimates].
      pose proof (accumulate_pair_inv r c f1 f2 done st Hf1 Hinv) as Hstep.
      specialize (IH Hrest _ _ Hstep).
      destruct (optical_flow (RadarFrame.data f1) (RadarFrame.data f2)) as [uv|];
        [now rewrite <- app_assoc in IH | now rewrite app_nil_r in IH].
Qed.

(** The aggregator on at least two frames of one shape: the mean of the
    successful estimates, or the error of the second check when no
    estimation succeeds. *)
Lemma calculate_average_velocity_mean (r c : nat) (frames : list RadarFrame.t) :
  (2 <= length frames)%nat ->
  Forall (fun f => shape (RadarFrame.data f) = (r, c)) frames ->
  match successful_estimates calcOpticalFlowPyrLK gaussian_filter frames with
  | [] =>
      calculate_average_velocity calcOpticalFlowPyrLK gaussian_filter frames
      = Raise (forecast_error "No valid frame pairs for velocity calculation")
  | done =>
      exists U V,
        calculate_average_velocity calcOpticalFlowPyrLK gaussian_filter frames
        = Ok (U, V)
        /\ (shape U = (r, c) /\ nd_dtype U = floating)
        /\ (shape V = (r, c) /\ nd_dtype V = floating)
        /\ forall i j, (i < r)%nat -> (j < c)%nat ->
             get U i j == cell_mean (map fst done) i j
             /\ get V i j == cell_mean (map snd done) i j
  end.
Proof.
  intros Hlen Hall. unfold calculate_average_velocity.
  destruct (length frames <? 2)%nat eqn:E; [apply Nat.ltb_lt in E; lia|].
  assert (Hinit : acc_inv r c [] (mk_acc None 0)) by (split; reflexivity).
  pose proof (velocity_loop_inv r c frames Hall [] _ Hinit) as [Hvp Hs].
  cbn [app] in Hvp, Hs.
  destruct (successful_estimates calcOpticalFlowPyrLK gaussian_filter frames) as [|uv done] eqn:Ed.
  - now rewrite Hvp.
  - rewrite Hvp. cbn [length Nat.eqb].
    destruct (sums _) as [[U V]|]; [|discriminate].
    destruct Hs as [_ [[HU HUd] [[HV HVd] Hcells]]].
    exists (div_scalar U (Qnat (S (length done)))),
           (div_scalar V (Qnat (S (length done)))).
    split; [reflexivity|].
    split; [split; [now rewrite shape_div_scalar | reflexivity]|].
    split; [split; [now rewrite shape_div_scalar | reflexivity]|].
    intros i j Hi Hj. rewrite !get_div_scalar.
    destruct (Hcells i j Hi Hj) as [H1 H2].
    unfold cell_mean. rewrite !length_map. cbn [length].
    rewrite H1, H2. split; reflexivity.
Qed.

End VelocityAggregator.

(* ------------------------------------------------------------------ *)
(** ** The forecast sequencer *)


Lemma timedelta_minutes_ok (m : Z) (d : DateTime.timedelta) :
  DateTime.timedelta_minutes m = Ok d -> d = (m * DateTime.us_per_minute)%Z.
Proof.
  unfold DateTime.timedelta_minutes.
  destruct (_ <=? _)%Z; [now intros [= <-] | discriminate].
Qed.

Lemma datetime_add_ok (t : DateTime.datetime) (d : DateTime.timedelta)
    (t' : DateTime.datetime) :
  DateTime.add t d = Ok t' -> t' = (t + d)%Z /\ DateTime.valid t'.
Proof.
  unfold DateTime.add, DateTime.valid.
  destruct (_ && _)%bool eqn:E; [|discriminate].
  intros [= <-]. apply andb_true_iff in E as [E1 E2].
  apply Z.leb_le in E1, E2. auto.
Qed.




Lemma Forall2_nth_error {A B : Type} (R : A -> B -> Prop) (l1 : list A)
    (l2 : list B) (k : nat) (b : B) :
  Forall2 R l1 l2 -> nth_error l2 k = Some b ->
  exists a, nth_error l1 k = Some a /\ R a b.
Proof.
  intros H. revert k. induction H as [|x y l1 l2 Hxy _ IH]; intros [|k] Hk;
    simpl in *; try discriminate.
  - injection Hk as <-. eauto.
  - now apply IH.
Qed.

Lemma nth_error_range_from_1 (n : Z) (k : nat) :
  nth_error (range_from_1 n) k
  = if (k <? Z.to_nat n)%nat then Some (Z.of_nat (S k)) else None.
Proof.
  unfold range_from_1. rewrite nth_error_map, nth_error_seq.
  destruct (k <? Z.to_nat n)%nat; reflexivity.
Qed.

Lemma last_item_app {A : Type} (l : list A) (x : A) : last_item (l ++ [x]) = Ok x.
Proof. unfold last_item. now rewrite rev_app_distr. Qed.

Lemma last_item_inv {A : Type} (l : list A) (x : A) :
  last_item l = Ok x -> exists front, l = front ++ [x].
Proof.
  unfold last_item. destruct (rev l) as [|y tl] eqn:E; [discriminate|].
  intros [= ->]. exists (rev tl).
  rewrite <- (rev_involutive l), E. reflexivity.
Qed.

(** The window of the most recent frames ends with the last frame. *)
Lemma last_item_last_k {A : Type} (k : nat) (l : list A) (x : A) :
  (1 <= k)%nat -> last_item l = Ok x -> last_item (last_k k l) = Ok x.
Proof.
  intros Hk H. apply last_item_inv in H as [front ->].
  unfold last_k. rewrite length_app. cbn [length].
  rewrite skipn_app.
  replace (length front + 1 - k - length front)%nat with 0%nat by lia.
  cbn [skipn]. apply last_item_app.
Qed.

Lemma Forall_last_k {A : Type} (P : A -> Prop) (k : nat) (l : list A) :
  Forall P l -> Forall P (last_k k l).
Proof.
  intros H. unfold last_k. rewrite <- (firstn_skipn (length l - k) l) in H.
  now apply Forall_app in H as [_ H].
Qed.

Lemma length_last_k {A : Type} (k : nat) (l : list A) :
  (k <= length l)%nat -> length (last_k k l) = k.
Proof. intros H. unfold last_k. rewrite length_skipn. lia. Qed.

Section ForecastSequencer.

Variable config : RadarConfig.
Variable np_exp : Q -> Q.

Lemma forecast_loop_spec (u v : ndarray) (dt : Z) (t0 : DateTime.datetime)
    (steps : list Z) :
  forall (field : ndarray) (acc rs : list ForecastResult.t),
    forecast_loop config np_exp u v dt t0 steps field acc = Ok rs ->
    exists new, rs = acc ++ new /\ Forall2 (step_record config t0) steps new.
Proof.
  induction steps as [|step rest IH]; intros field acc rs H;
    cbn [forecast_loop] in H.
  - injection H as <-. exists []. now rewrite app_nil_r.
  - destruct (advect_field field u v (inject_Z dt)) as [adv|] eqn:Ea;
      [|discriminate].
    cbn [bind] in H.
    rewrite apply_growth_decay_model_floating in H
      by (apply (advect_field_floating _ _ _ _ _ Ea)).
    cbn [bind] in H.
    destruct (DateTime.timedelta_minutes _) as [delta|] eqn:Et; [|discriminate].
    cbn [bind] in H.
    destruct (DateTime.add t0 delta) as [ft|] eqn:Eadd; [|discriminate].
    cbn [bind] in H.
    apply timedelta_minutes_ok in Et. apply datetime_add_ok in Eadd as [Eft Hvalid].
    apply IH in H as [new [-> HF]].
    eexists (_ :: new). rewrite <- app_assoc. split; [reflexivity|].
    constructor; [|exact HF].
    unfold step_record. cbn [ForecastResult.timestamp ForecastResult.confidence
      ForecastResult.method ForecastResult.data].
    split; [unfold forecast_time; subst; reflexivity|].
    split; [exact Hvalid|]. split; [reflexivity|]. split; [reflexivity|].
    eexists. split; [|split; [|reflexivity]]; [reflexivity|].
    apply all_cells_map. intros x. apply evolve_cell_range.
Qed.


End ForecastSequencer.

Lemma last_k_all {A : Type} (l : list A) : last_k (length l) l = l.
Proof. unfold last_k. now rewrite Nat.sub_diag. Qed.

Lemma shape_astype_floating (a : ndarray) : shape (astype floating a) = shape a.
Proof. reflexivity. Qed.

Section GenerateForecast.

Variable config : RadarConfig.
Variable calcOpticalFlowPyrLK :
  ndarray -> ndarray -> list (Q * Q) -> result (list (Q * Q)).
Variable gaussian_filter : list (list Q) -> Q -> list (list Q).
Variable np_exp : Q -> Q.

Local Abbreviation forecast :=
  (generate_forecast config calcOpticalFlowPyrLK gaussian_filter np_exp).

(** A forecast that is returned holds one record per step 1..forecast_steps,
    timed from the last frame. *)
Lemma generate_forecast_records (frames : list RadarFrame.t)
    (rs : list ForecastResult.t) :
  forecast frames = Ok rs ->
  exists last,
    last_item frames = Ok last
    /\ Forall2 (step_record config (RadarFrame.timestamp last))
               (range_from_1 (forecast_steps config)) rs.
Proof.
  unfold generate_forecast.
  destruct (length frames <? 3)%nat eqn:El; [discriminate|].
  apply Nat.ltb_ge in El. unfold try_except.
  destruct (calculate_average_velocity _ _ _) as [[u v]|]; [|discriminate].
  cbn [bind].
  destruct (last_item (last_k _ frames)) as [last|] eqn:Elast; [|discriminate].
  cbn [bind].
  destruct (forecast_loop _ _ _ _ _ _ _ _ _) as [rs'|] eqn:Eloop; [|discriminate].
  intros [= ->].
  apply forecast_loop_spec in Eloop as [new [-> HF]].
  exists last. split; [|exact HF].
  destruct (last_item frames) as [y|] eqn:Ey.
  - rewrite (last_item_last_k _ _ y) in Elast by (try exact Ey; lia).
    exact Elast.
  - unfold last_item in Ey. destruct (rev frames) eqn:Er; [|discriminate].
    apply (f_equal (@length _)) in Er. rewrite length_rev in Er.
    simpl in Er. lia.
Qed.

Hypothesis gaussian_filter_shape :
  forall (a : ndarray) (sigma : Q), shape (smooth gaussian_filter a sigma) = shape a.


End GenerateForecast.

(* ------------------------------------------------------------------ *)
(** ** Confidence *)

Lemma confidence_at_floor (step : Z) : 1 # 10 <= confidence_at step.
Proof. unfold confidence_at. apply Q.le_max_l. Qed.

Lemma inject_Z_nonneg (z : Z) : (0 <= z)%Z -> 0 <= inject_Z z.
Proof. intros H. change 0 with (inject_Z 0). now rewrite <- Zle_Qle. Qed.

Lemma confidence_at_le_1 (step : Z) : (0 <= step)%Z -> confidence_at step <= 1.
Proof.
  intros H. unfold confidence_at. apply inject_Z_nonneg in H.
  apply Q.max_lub; lra.
Qed.

Lemma confidence_at_antitone (s s' : Z) :
  (s <= s')%Z -> confidence_at s' <= confidence_at s.
Proof.
  intros H. unfold confidence_at. rewrite Zle_Qle in H.
  apply Q.max_le_compat; lra.
Qed.

(* ------------------------------------------------------------------ *)
(** * The claims *)






Lemma no_filter_shape (a : ndarray) (sigma : Q) :
  shape (smooth Standin.no_filter a sigma) = shape a.
Proof. reflexivity. Qed.



(** Without a pair on which the motion estimation succeeds there is no
    forecast: the same ten frames with a tracker that cannot be evaluated. *)
Example forecast_without_estimate_raises :
  generate_forecast default_config Standin.failing_tracker Standin.no_filter
    Standin.exp_approx Standin.ten_frames
  = Raise (forecast_error
             "Forecast generation failed: No valid frame pairs for velocity calculation").
Proof. reflexivity. Qed.

(** C3. In every forecast that is returned there is one result per step,
    and the confidence of the k-th result (k = 1, 2, ...) is
    max(0.1, 1.0 - 0.15 * k); it is at least 0.1, lies in (0, 1], and the
    confidence of the next result is not larger. *)
Theorem C3_confidence_decay
    (config : RadarConfig)
    (calcOpticalFlowPyrLK : ndarray -> ndarray -> list (Q * Q) -> result (list (Q * Q)))
    (gaussian_filter : list (list Q) -> Q -> list (list Q))
    (np_exp : Q -> Q)
    (frames : list RadarFrame.t) (rs : list ForecastResult.t) :
  generate_forecast config calcOpticalFlowPyrLK gaussian_filter np_exp frames = Ok rs ->
  length rs = Z.to_nat (forecast_steps config)
  /\ forall k f, nth_error rs k = Some f ->
       ForecastResult.confidence f
       = Qmax (1 # 10) (1 - inject_Z (Z.of_nat (S k)) * (15 # 100))
       /\ 1 # 10 <= ForecastResult.confidence f
       /\ 0 < ForecastResult.confidence f <= 1
       /\ forall f', nth_error rs (S k) = Some f' ->
            ForecastResult.confidence f' <= ForecastResult.confidence f.
Proof.
  intros H. apply generate_forecast_records in H as [last [_ HF]].
  assert (Hconf : forall k f, nth_error rs k = Some f ->
            ForecastResult.confidence f = confidence_at (Z.of_nat (S k))).
  { intros k f Hk.
    destruct (Forall2_nth_error _ _ _ _ _ HF Hk) as [step [Hstep [_ [_ [Hc _]]]]].
    rewrite nth_error_range_from_1 in Hstep.
    destruct (k <? _)%nat; [|discriminate]. now injection Hstep as <-. }
  split.
  - apply Forall2_length in HF. rewrite <- HF.
    unfold range_from_1. now rewrite length_map, length_seq.
  - intros k f Hk. rewrite (Hconf k f Hk).
    pose proof (confidence_at_floor (Z.of_nat (S k))) as Hfloor.
    pose proof (confidence_at_le_1 (Z.of_nat (S k)) (Nat2Z.is_nonneg _)) as Hle.
    split; [reflexivity|]. split; [exact Hfloor|]. split; [split; [lra | exact Hle]|].
    intros f' Hk'. rewrite (Hconf _ f' Hk').
    apply confidence_at_antitone. lia.
Qed.

Lemma C3_witness :
  exists rs,
    generate_forecast Standin.two_steps Standin.still_tracker Standin.no_filter
      Standin.exp_approx Standin.three_frames = Ok rs
    /\ length rs = 2%nat
    /\ forall k f, nth_error rs k = Some f ->
         ForecastResult.confidence f
         = Qmax (1 # 10) (1 - inject_Z (Z.of_nat (S k)) * (15 # 100))
         /\ 1 # 10 <= ForecastResult.confidence f
         /\ 0 < ForecastResult.confidence f <= 1
         /\ forall f', nth_error rs (S k) = Some f' ->
              ForecastResult.confidence f' <= ForecastResult.confidence f.
Proof.
  eexists. split; [vm_compute; reflexivity|].
  apply (C3_confidence_decay Standin.two_steps Standin.still_tracker
           Standin.no_filter Standin.exp_approx Standin.three_frames).
  vm_compute. reflexivity.
Defined.

(** C4, as the claim states it, fails: with one frame the velocity
    aggregator raises ForecastError, which is no InsufficientDataError. *)
Lemma C4_counterexample :
  raises (calculate_average_velocity Standin.still_tracker Standin.no_filter
            [Standin.frame 0 [Standin.row20; Standin.row20]])
         "ForecastError"
  /\ ~ raises (calculate_average_velocity Standin.still_tracker Standin.no_filter
                 [Standin.frame 0 [Standin.row20; Standin.row20]])
              "InsufficientDataError".
Proof.
  split.
  - eexists. split; reflexivity.
  - intros [e [He Hi]]. vm_compute in He. injection He as <-.
    vm_compute in Hi. discriminate.
Qed.

(** C4, amended. With fewer than 3 frames generate_forecast raises
    ForecastError ("Need at least 3 frames for forecasting"); with fewer than
    2 frames calculate_average_velocity raises ForecastError ("Need at least
    2 frames to calculate velocity"); with at least 3, respectively 2, frames
    neither of these two errors is raised. *)
Theorem C4_frame_count_floors
    (config : RadarConfig)
    (calcOpticalFlowPyrLK : ndarray -> ndarray -> list (Q * Q) -> result (list (Q * Q)))
    (gaussian_filter : list (list Q) -> Q -> list (list Q))
    (np_exp : Q -> Q)
    (frames : list RadarFrame.t) :
  ((length frames < 3)%nat ->
     generate_forecast config calcOpticalFlowPyrLK gaussian_filter np_exp frames
     = Raise (forecast_error "Need at least 3 frames for forecasting")
     /\ raises (generate_forecast config calcOpticalFlowPyrLK gaussian_filter
                  np_exp frames) "ForecastError")
  /\ ((length frames < 2)%nat ->
        calculate_average_velocity calcOpticalFlowPyrLK gaussian_filter frames
        = Raise (forecast_error "Need at least 2 frames to calculate velocity")
        /\ raises (calculate_average_velocity calcOpticalFlowPyrLK
                     gaussian_filter frames) "ForecastError")
  /\ ((3 <= length frames)%nat ->
        generate_forecast config calcOpticalFlowPyrLK gaussian_filter np_exp frames
        <> Raise (forecast_error "Need at least 3 frames for forecasting"))
  /\ ((2 <= length frames)%nat ->
        calculate_average_velocity calcOpticalFlowPyrLK gaussian_filter frames
        <> Raise (forecast_error "Need at least 2 frames to calculate velocity")).
Proof.
  split; [|split; [|split]].
  - intros H. apply Nat.ltb_lt in H. unfold generate_forecast. rewrite H.
    split; [reflexivity|]. eexists. split; reflexivity.
  - intros H. apply Nat.ltb_lt in H. unfold calculate_average_velocity. rewrite H.
    split; [reflexivity|]. eexists. split; reflexivity.
  - intros H. apply Nat.ltb_ge in H. unfold generate_forecast. rewrite H.
    unfold try_except.
    destruct (_ <- _ ;; _) as [rs|e]; [discriminate|].
    unfold forecast_error. intros [= E]. 
  - intros H. apply Nat.ltb_ge in H. unfold calculate_average_velocity. rewrite H.
    destruct (_ =? _)%nat; [discriminate|].
    destruct (sums _) as [[u v]|]; discriminate.
Qed.

(** C5, as the claim states it, fails: when every pair of the buffer fails
    in the motion estimator, the aggregator raises ForecastError, which is
    no InsufficientDataError. *)
Lemma C5_counterexample :
  raises (calculate_average_velocity Standin.failing_tracker Standin.no_filter
            Standin.three_frames)
         "ForecastError"
  /\ ~ raises (calculate_average_velocity Standin.failing_tracker Standin.no_filter
                 Standin.three_frames)
              "InsufficientDataError".
Proof.
  split.
  - eexists. split; reflexivity.
  - intros [e [He Hi]]. vm_compute in He. injection He as <-.
    vm_compute in Hi. discriminate.
Qed.

(** C5, amended. Given at least 2 frames of one shape, the aggregator
    returns, cell by cell, the mean of the velocity fields of exactly those
    consecutive pairs whose motion estimation succeeds (their sum divided by
    their number); a pair whose estimation raises is skipped; when no pair
    succeeds the aggregator raises ForecastError ("No valid frame pairs for
    velocity calculation") and returns no field. *)
Theorem C5_mean_of_successful_pairs
    (calcOpticalFlowPyrLK : ndarray -> ndarray -> list (Q * Q) -> result (list (Q * Q)))
    (gaussian_filter : list (list Q) -> Q -> list (list Q))
    (r c : nat) (frames : list RadarFrame.t) :
  (forall a sigma, shape (smooth gaussian_filter a sigma) = shape a) ->
  (2 <= length frames)%nat ->
  Forall (fun f => shape (RadarFrame.data f) = (r, c)) frames ->
  let done := successful_estimates calcOpticalFlowPyrLK gaussian_filter frames in
  (done = [] ->
     calculate_average_velocity calcOpticalFlowPyrLK gaussian_filter frames
     = Raise (forecast_error "No valid frame pairs for velocity calculation")
     /\ raises (calculate_average_velocity calcOpticalFlowPyrLK gaussian_filter
                  frames) "ForecastError")
  /\ (done <> [] ->
        exists U V,
          calculate_average_velocity calcOpticalFlowPyrLK gaussian_filter frames
          = Ok (U, V)
          /\ shape U = (r, c) /\ shape V = (r, c)
          /\ forall i j, (i < r)%nat -> (j < c)%nat ->
               get U i j
               == cell_sum (map fst done) i j / Qnat (length done)
               /\ get V i j
                  == cell_sum (map snd done) i j / Qnat (length done)).
Proof.
  intros Hg Hlen Hshape done.
  pose proof (calculate_average_velocity_mean calcOpticalFlowPyrLK gaussian_filter
                Hg r c frames Hlen Hshape) as Hm.
  fold done in Hm. destruct done as [|uv rest].
  - split; [|congruence]. intros _. rewrite Hm.
    split; [reflexivity|]. eexists. split; reflexivity.
  - split; [discriminate|]. intros _.
    destruct Hm as [U [V [Hcalc [[HU _] [[HV _] Hcells]]]]].
    exists U, V. split; [exact Hcalc|]. split; [exact HU|]. split; [exact HV|].
    intros i j Hi Hj. destruct (Hcells i j Hi Hj) as [H1 H2].
    unfold cell_mean in H1, H2. rewrite !length_map in H1, H2. now split.
Qed.

Lemma C5_witness :
  let done := successful_estimates Standin.shift_tracker Standin.no_filter
                Standin.three_frames in
  (done = [] ->
     calculate_average_velocity Standin.shift_tracker Standin.no_filter
       Standin.three_frames
     = Raise (forecast_error "No valid frame pairs for velocity calculation")
     /\ raises (calculate_average_velocity Standin.shift_tracker Standin.no_filter
                  Standin.three_frames) "ForecastError")
  /\ (done <> [] ->
        exists U V,
          calculate_average_velocity Standin.shift_tracker Standin.no_filter
            Standin.three_frames
          = Ok (U, V)
          /\ shape U = (2%nat, 20%nat) /\ shape V = (2%nat, 20%nat)
          /\ forall i j, (i < 2)%nat -> (j < 20)%nat ->
               get U i j
               == cell_sum (map fst done) i j / Qnat (length done)
               /\ get V i j
                  == cell_sum (map snd done) i j / Qnat (length done)).
Proof.
  apply (C5_mean_of_successful_pairs Standin.shift_tracker Standin.no_filter
           2 20 Standin.three_frames).
  - exact no_filter_shape.
  - simpl. lia.
  - repeat constructor.
Defined.

(** C6, as the claim states it, fails: with a step of five hours a cell of
    value 149 grows to 186.25, above the decay threshold; the code leaves it
    undecayed, because its decay mask was taken from the input field, while
    the sequential reading decays it. *)
Lemma C6_counterexample :
  exists out,
    apply_growth_decay_model Standin.exp_approx (mk_nd floating [[149]]) 18000
    = Ok out
    /\ get out 0 0 == 1490 # 13
    /\ get (evolve_sequential Standin.exp_approx (mk_nd floating [[149]]) 18000) 0 0
       == 745 # 26
    /\ ~ array_equal out
           (evolve_sequential Standin.exp_approx (mk_nd floating [[149]]) 18000).
Proof.
  eexists. split; [vm_compute; reflexivity|].
  split; [reflexivity|]. split; [reflexivity|].
  intros H. unfold array_equal in H. vm_compute in H.
  inversion H as [|? ? ? ? Hrow _]; subst.
  inversion Hrow as [|? ? ? ? Hcell _]; subst.
  discriminate Hcell.
Qed.

(** The same divergence for every value in (0, 1] of the decay factor. *)
Lemma sequential_reading_differs (np_exp : Q -> Q) :
  0 < np_exp (- (1 # 10) * 18000 / 3600) <= 1 ->
  ~ evolve_cell np_exp 18000 149 == sequential_cell np_exp 18000 149.
Proof.
  intros He. unfold evolve_cell, sequential_cell.
  set (e := np_exp _) in *.
  assert (Hg : 149 * growth_factor 18000 == 745 # 4) by reflexivity.
  assert (Hd : decay_factor 18000 == 1 # 4) by reflexivity.
  change (in_growth_band 149) with true. change (gt 180 149) with false.
  cbv iota.
  destruct (gt 180 (149 * growth_factor 18000)) eqn:E.
  - intros H.
    rewrite (clip1_id 0 255 (149 * growth_factor 18000 * e)) in H by nra.
    rewrite (clip1_id 0 255 (149 * growth_factor 18000 * decay_factor 18000 * e))
      in H by nra.
    nra.
  - apply gt_false in E. lra.
Qed.

(** C6, amended. On a floating-point field the evolution model takes the
    growth cells (80 < x < 150) and the decay cells (x > 180) from the input
    field, before any scaling; it then scales the current value of the
    growth cells by (1 + 0.05*dt/3600), the current value of the decay cells
    by (1 - 0.15*dt/3600), multiplies the whole field by
    exp(-0.1*dt/3600) and clamps every value into 0..255. For dt up to
    14400 s this is the same as testing each threshold on the current state
    of the field. *)
Theorem C6_evolution_masks_from_input (np_exp : Q -> Q) (field : ndarray) (dt : Q) :
  nd_dtype field = floating ->
  apply_growth_decay_model np_exp field dt
  = Ok (mk_nd floating (map (map (evolve_cell np_exp dt)) (nd_rows field)))
  /\ (dt <= 14400 ->
      apply_growth_decay_model np_exp field dt
      = Ok (evolve_sequential np_exp field dt)).
Proof.
  intros Hd. rewrite apply_growth_decay_model_floating by exact Hd.
  split; [reflexivity|]. intros Hdt. unfold evolve_sequential. do 2 f_equal.
  apply map_ext. intros row. apply map_ext. intros x.
  now apply evolve_cell_sequential.
Qed.

Lemma C6_witness :
  apply_growth_decay_model Standin.exp_approx (mk_nd floating [[149; 100; 200]]) 600
  = Ok (mk_nd floating
          (map (map (evolve_cell Standin.exp_approx 600)) [[149; 100; 200]]))
  /\ (600 <= 14400 ->
      apply_growth_decay_model Standin.exp_approx
        (mk_nd floating [[149; 100; 200]]) 600
      = Ok (evolve_sequential Standin.exp_approx
              (mk_nd floating [[149; 100; 200]]) 600)).
Proof.
  apply (C6_evolution_masks_from_input Standin.exp_approx
           (mk_nd floating [[149; 100; 200]]) 600).
  reflexivity.
Defined.

(** C7. The evolution model never raises: for every field and dt it returns
    a field, and whenever its computation fails it returns the input field
    itself. The failure is real: on an 8-bit field the in-place scaling
    cannot be cast and the input comes back unchanged. The advector, in
    contrast, turns a failure of its computation into a ForecastError. *)
Theorem C7_evolution_soft_fail (np_exp : Q -> Q) (field : ndarray) (dt : Q) :
  (exists out,
     apply_growth_decay_model np_exp field dt = Ok out
     /\ forall e, growth_decay_body np_exp field dt = Raise e -> out = field)
  /\ (nd_dtype field = uint8 ->
      exists e, growth_decay_body np_exp field dt = Raise e
                /\ apply_growth_decay_model np_exp field dt = Ok field)
  /\ (forall u v e,
        advect_body field u v dt = Raise e ->
        advect_field field u v dt
        = Raise (forecast_error ("Field advection failed: " ++ exn_msg e))
        /\ raises (advect_field field u v dt) "ForecastError").
Proof.
  split; [|split].
  - unfold apply_growth_decay_model, try_except.
    destruct (growth_decay_body np_exp field dt) as [out|e0].
    + exists out. split; [reflexivity | discriminate].
    + exists field. split; reflexivity.
  - intros Hd. exists cast_error.
    unfold apply_growth_decay_model.
    rewrite growth_decay_body_uint8 by exact Hd. split; reflexivity.
  - intros u v e He. unfold advect_field. rewrite He. cbn [try_except].
    split; [reflexivity|]. eexists. split; reflexivity.
Qed.

(** The advector does fail: a velocity field that cannot be broadcast to
    the shape of the field ends the call with a ForecastError. *)
Example advect_field_raises :
  advect_field (mk_nd floating [[1; 2; 3]; [4; 5; 6]])
               (mk_nd floating [[0; 0]; [0; 0]])
               (mk_nd floating [[0; 0]; [0; 0]]) 600
  = Raise (forecast_error
             "Field advection failed: operands could not be broadcast together").
Proof. reflexivity. Qed.






(** C9 fails on the code. On a frame of shape (11, 15) the anchors are
    (x, y) = (0, 0), (10, 0), (0, 10), (10, 10), two per row, but the index
    of a tracked point is split with 15 // 10 = 1 anchors per row. With every
    anchor displaced by (1, 2), the cell [0, 10] of the second anchor stays 0
    in both arrays, the cell [10, 0] of the third anchor receives the second
    point measured against the wrong anchor, (11, -8) instead of (1, 2), and
    the last two points are dropped. *)
Theorem C9_displacement_off_anchor :
  anchor_points frame_11x15 = [(0, 0); (Qnat 10, 0); (0, Qnat 10); (Qnat 10, Qnat 10)]
  /\ exists u v,
       velocity_samples frame_11x15 flow_11x15 = Ok (u, v)
       /\ (get u 0 0 == 1 /\ get v 0 0 == 2)
       /\ (get u 0 10 == 0 /\ get v 0 10 == 0)
       /\ (get u 10 0 == 11 /\ get v 10 0 == - (8))
       /\ (get u 10 10 == 0 /\ get v 10 10 == 0)
       /\ ~ samples_at_anchors frame_11x15 flow_11x15 u v.
Proof.
  split; [reflexivity|].
  eexists. eexists. split; [vm_compute; reflexivity|].
  split; [split; reflexivity|]. split; [split; reflexivity|].
  split; [split; reflexivity|]. split; [split; reflexivity|].
  intros [H _]. vm_compute in H.
  inversion H as [|? ? ? ? _ H1]; subst.
  inversion H1 as [|? ? ? ? [Hu _] _]; subst.
  discriminate Hu.
Qed.

(** A frame narrower than 10 columns cannot be estimated at all: the index
    is split with 0 anchors per row. *)
Example narrow_frame_raises :
  calculate_optical_flow Standin.still_tracker Standin.no_filter
    (mk_nd uint8 [[1; 2; 3; 4; 5]]) (mk_nd uint8 [[1; 2; 3; 4; 5]])
  = Raise (forecast_error
             "Optical flow calculation failed: integer division or modulo by zero").
Proof. reflexivity. Qed.

(* ------------------------------------------------------------------ *)
(** * Further properties *)

(** With a column count that is a multiple of 10 the loop writes every
    displacement into the cell of its own anchor and nothing else. *)
Theorem samples_at_anchors_multiple_of_10 (frame1 : ndarray) (flow : list (Q * Q))
    (m : nat) :
  rect frame1 -> ncols frame1 = (10 * m)%nat -> (0 < m)%nat ->
  length flow = length (anchor_cells frame1) ->
  exists u v,
    velocity_samples frame1 flow = Ok (u, v)
    /\ samples_at_anchors frame1 flow u v.
Proof.
  intros Hrect Hw Hm Hlen.
  assert (Hxs : length (range10 (ncols frame1)) = m)
    by (rewrite length_range10, Hw; symmetry; apply Nat.div_unique with 9%nat; lia).
  assert (Hn : length (anchor_cells frame1)
               = ((nrows frame1 + 9) / 10 * m)%nat)
    by (unfold anchor_cells; now rewrite length_grid, Hxs, length_range10).
  assert (Hcell : forall k, (k < length flow)%nat ->
            nth_error (anchor_cells frame1) k = Some (cell_of m k)).
  { intros k Hk. rewrite Hlen, Hn in Hk.
    apply (nth_error_grid (fun y x => (y, x)) _ m Hxs Hm).
    - apply nth_error_range10. apply Nat.Div0.div_lt_upper_bound. lia.
    - rewrite Hw. apply nth_error_range10.
      pose proof (Nat.mod_upper_bound k m ltac:(lia)) as Hb.
      replace ((10 * m + 9) / 10)%nat with m
        by (apply Nat.div_unique with 9%nat; lia).
      exact Hb. }
  assert (Hrows : forall k, (k < length flow)%nat ->
            (fst (cell_of m (0 + k)) < nrows frame1)%nat).
  { intros k Hk. rewrite Hlen, Hn in Hk. cbn [cell_of fst plus].
    assert (Hq : (k / m < (nrows frame1 + 9) / 10)%nat)
      by (apply Nat.Div0.div_lt_upper_bound; lia).
    pose proof (Nat.Div0.mul_div_le (nrows frame1 + 9) 10). lia. }
  destruct (scatter_flow_cells frame1 m Hw Hm flow 0%nat _ _
              (full_zeros_like frame1 Hrect) (full_zeros_like frame1 Hrect) Hrows)
    as [u [v [Es [Hset Hkeep]]]].
  exists u, v. split; [exact Es|]. split.
  - apply (Forall2_by_nth _ (0%nat, 0%nat) (0, 0)); [now symmetry|].
    intros k Hk. rewrite <- Hlen in Hk.
    rewrite (nth_error_nth _ _ _ (Hcell k Hk)).
    destruct (nth_error flow k) as [[x y]|] eqn:Ef;
      [|apply nth_error_None in Ef; lia].
    rewrite (nth_error_nth _ _ _ Ef). cbn [fst snd].
    destruct (Hset k x y Ef) as [H1 H2]. cbn [plus] in H1, H2.
    rewrite H1, H2. split; reflexivity.
  - intros i j Hnot.
    destruct (Hkeep i j) as [K1 K2].
    { intros k Hk E. apply Hnot. rewrite E. cbn [plus].
      apply (nth_error_In _ k). now apply Hcell. }
    rewrite K1, K2, !get_zeros_like. split; reflexivity.
Qed.

Lemma samples_at_anchors_witness :
  exists u v,
    velocity_samples (mk_nd uint8 (tabulate 11 20 (fun _ _ => 0)))
      (map (fun p => (fst p + 1, snd p + 2))
           (anchor_points (mk_nd uint8 (tabulate 11 20 (fun _ _ => 0)))))
    = Ok (u, v)
    /\ samples_at_anchors (mk_nd uint8 (tabulate 11 20 (fun _ _ => 0)))
         (map (fun p => (fst p + 1, snd p + 2))
              (anchor_points (mk_nd uint8 (tabulate 11 20 (fun _ _ => 0))))) u v.
Proof.
  apply (samples_at_anchors_multiple_of_10
           (mk_nd uint8 (tabulate 11 20 (fun _ _ => 0))) _ 2).
  - repeat constructor.
  - reflexivity.
  - lia.
  - reflexivity.
Defined.

(** Whatever fails inside generate_forecast, the caller sees a ForecastError. *)
Theorem generate_forecast_raises_forecast_error
    (config : RadarConfig)
    (calcOpticalFlowPyrLK : ndarray -> ndarray -> list (Q * Q) -> result (list (Q * Q)))
    (gaussian_filter : list (list Q) -> Q -> list (list Q))
    (np_exp : Q -> Q)
    (frames : list RadarFrame.t) (e : exn) :
  generate_forecast config calcOpticalFlowPyrLK gaussian_filter np_exp frames = Raise e ->
  exn_cls e = ForecastError /\ isinstance e "ForecastError" = true.
Proof.
  unfold generate_forecast.
  destruct (length frames <? 3)%nat; [intros [= <-]; now split|].
  unfold try_except.
  destruct (_ <- _ ;; _) as [rs|e0]; [discriminate|].
  intros [= <-]. now split.
Qed.

Lemma generate_forecast_raises_witness :
  exn_cls (forecast_error
             "Forecast generation failed: No valid frame pairs for velocity calculation")
  = ForecastError
  /\ isinstance (forecast_error
                   "Forecast generation failed: No valid frame pairs for velocity calculation")
                "ForecastError" = true.
Proof.
  apply (generate_forecast_raises_forecast_error default_config
           Standin.failing_tracker Standin.no_filter Standin.exp_approx
           Standin.three_frames).
  reflexivity.
Defined.

Lemma forecast_loop_shape (config : RadarConfig) (np_exp : Q -> Q)
    (u v : ndarray) (dt : Z) (t0 : DateTime.datetime) (steps : list Z) :
  forall (field : ndarray) (acc rs : list ForecastResult.t),
    shape u = shape field -> shape v = shape field ->
    Forall (fun f => shape (ForecastResult.data f) = shape field) acc ->
    forecast_loop config np_exp u v dt t0 steps field acc = Ok rs ->
    Forall (fun f => shape (ForecastResult.data f) = shape field) rs.
Proof.
  induction steps as [|step rest IH]; intros field acc rs Hu Hv Hacc H;
    cbn [forecast_loop] in H.
  - now injection H as <-.
  - rewrite advect_field_same_shape in H by assumption. cbn [bind] in H.
    rewrite apply_growth_decay_model_floating in H by reflexivity.
    cbn [bind nd_rows] in H.
    destruct (DateTime.timedelta_minutes _) as [delta|]; [|discriminate].
    cbn [bind] in H.
    destruct (DateTime.add t0 delta) as [ft|]; [|discriminate].
    cbn [bind] in H.
    set (evolved := mk_nd floating (map (map (evolve_cell np_exp (inject_Z dt))) _)) in H.
    assert (Hs : shape evolved = shape field)
      by (unfold evolved;
          now rewrite (shape_map_cells floating floating), shape_tabulate).
    rewrite <- Hs. eapply (IH evolved); [congruence | congruence | | exact H].
    apply Forall_app. split.
    + rewrite Hs. exact Hacc.
    + constructor; [|constructor]. cbn [ForecastResult.data].
      unfold astype. destruct evolved as [t rows].
      apply (shape_map_cells uint8 t).
Qed.

(** The shape of the frames is the shape of every forecast grid: on a
    buffer of frames of one shape, every grid that generate_forecast returns
    has that shape. *)
Theorem forecast_grids_keep_shape
    (config : RadarConfig)
    (calcOpticalFlowPyrLK : ndarray -> ndarray -> list (Q * Q) -> result (list (Q * Q)))
    (gaussian_filter : list (list Q) -> Q -> list (list Q))
    (np_exp : Q -> Q)
    (r c : nat) (frames : list RadarFrame.t) (rs : list ForecastResult.t) :
  (forall a sigma, shape (smooth gaussian_filter a sigma) = shape a) ->
  Forall (fun f => shape (RadarFrame.data f) = (r, c)) frames ->
  generate_forecast config calcOpticalFlowPyrLK gaussian_filter np_exp frames = Ok rs ->
  Forall (fun f => shape (ForecastResult.data f) = (r, c)) rs.
Proof.
  intros Hg Hshape. unfold generate_forecast.
  destruct (length frames <? 3)%nat eqn:El; [discriminate|].
  apply Nat.ltb_ge in El. fold (recent_window frames). unfold try_except.
  assert (Hw : Forall (fun f => shape (RadarFrame.data f) = (r, c))
                      (recent_window frames)) by (now apply Forall_last_k).
  assert (Hwl : (2 <= length (recent_window frames))%nat)
    by (unfold recent_window; rewrite length_last_k; lia).
  pose proof (calculate_average_velocity_mean calcOpticalFlowPyrLK gaussian_filter
                Hg r c _ Hwl Hw) as Hm.
  destruct (calculate_average_velocity _ _ _) as [[U V]|] eqn:Ecalc; [|discriminate].
  cbn [bind].
  destruct (successful_estimates _ _ _) as [|uv done]; [discriminate Hm|].
  destruct Hm as [U' [V' [[= <- <-] [[HU _] [[HV _] _]]]]].
  destruct (last_item (recent_window frames)) as [last|] eqn:Elast; [|discriminate].
  cbn [bind].
  assert (Hseed : shape (RadarFrame.data last) = (r, c)).
  { apply last_item_inv in Elast as [front Ef]. rewrite Ef in Hw.
    apply Forall_app in Hw as [_ Hl]. now inversion Hl. }
  destruct (forecast_loop _ _ _ _ _ _ _ _ _) as [rs'|] eqn:Eloop; [|discriminate].
  intros [= ->]. rewrite <- Hseed.
  change (shape (RadarFrame.data last))
    with (shape (astype floating (copy (RadarFrame.data last)))).
  eapply forecast_loop_shape; [| | apply Forall_nil | exact Eloop];
    rewrite shape_astype_floating; unfold copy; congruence.
Qed.

Lemma forecast_grids_keep_shape_witness :
  exists rs,
    generate_forecast Standin.two_steps Standin.still_tracker Standin.no_filter
      Standin.exp_approx Standin.three_frames = Ok rs
    /\ Forall (fun f => shape (ForecastResult.data f) = (2%nat, 20%nat)) rs.
Proof.
  eexists. split; [vm_compute; reflexivity|].
  apply (forecast_grids_keep_shape Standin.two_steps Standin.still_tracker
           Standin.no_filter Standin.exp_approx 2 20 Standin.three_frames).
  - exact no_filter_shape.
  - repeat constructor.
  - vm_compute. reflexivity.
Defined.

(* ------------------------------------------------------------------ *)
(** ** Advection along whole-cell displacements *)








(* ------------------------------------------------------------------ *)
(** ** A field without precipitation *)

Lemma advect_field_rect (field u v : ndarray) (dt : Q) (out : ndarray) :
  advect_field field u v dt = Ok out -> rect out.
Proof.
  intros H. apply advect_field_ok in H. unfold advect_body in H.
  destruct (sub (mgrid_x _ _) _); [|discriminate].
  destruct (sub (mgrid_y _ _) _); [|discriminate].
  cbn [bind] in H. unfold Cv.remap in H.
  destruct (_ && _)%bool; [|discriminate].
  injection H as <-. unfold rect. cbn [nd_rows].
  rewrite ncols_tabulate. unfold tabulate.
  apply Forall_forall. intros row Hrow.
  apply in_map_iff in Hrow as [i [<- Hi]]. apply in_seq in Hi.
  rewrite length_map, length_seq.
  destruct (nrows _); [lia | reflexivity].
Qed.

Lemma rect_map_cells (t t' : dtype) (g : Q -> Q) (rows : list (list Q)) :
  rect (mk_nd t rows) -> rect (mk_nd t' (map (map g) rows)).
Proof.
  unfold rect, ncols. cbn [nd_rows]. intros H.
  apply Forall_forall. intros row Hrow.
  apply in_map_iff in Hrow as [r0 [<- Hr0]].
  rewrite Forall_forall in H. rewrite length_map, (H _ Hr0).
  destruct rows as [|r1 rest]; [destruct Hr0|]. cbn [map]. now rewrite length_map.
Qed.

Lemma all_cells_map_impl (P P' : Q -> Prop) (t t' : dtype) (g : Q -> Q)
    (rows : list (list Q)) :
  (forall x, P x -> P' (g x)) ->
  all_cells P (mk_nd t rows) -> all_cells P' (mk_nd t' (map (map g) rows)).
Proof.
  unfold all_cells. cbn [nd_rows]. intros Hg H.
  apply Forall_forall. intros row Hrow.
  apply in_map_iff in Hrow as [r0 [<- Hr0]].
  rewrite Forall_forall in H. specialize (H _ Hr0).
  apply Forall_forall. intros x Hx.
  apply in_map_iff in Hx as [x0 [<- Hx0]].
  rewrite Forall_forall in H. auto.
Qed.

Lemma evolve_cell_zero (np_exp : Q -> Q) (dt x : Q) :
  0 <= x <= 0 -> 0 <= evolve_cell np_exp dt x <= 0.
Proof.
  intros Hx. assert (Hz : x == 0) by lra.
  unfold evolve_cell, in_growth_band.
  assert (G1 : gt 80 x = false) by (apply gt_false; lra).
  assert (G2 : gt 180 x = false) by (apply gt_false; lra).
  rewrite G1, G2. cbn [andb].
  assert (He : x * np_exp (- (1 # 10) * dt / 3600) == 0) by (rewrite Hz; ring).
  rewrite clip1_id by (rewrite He; lra). rewrite He. lra.
Qed.

Lemma to_uint8_zero (x : Q) : 0 <= x <= 0 -> to_uint8 x == 0.
Proof.
  intros Hx. assert (Hz : x == 0) by lra.
  unfold to_uint8, Qtrunc.
  assert (E : Qle_bool 0 x = true) by (apply Qle_bool_iff; lra).
  rewrite E, (Qfloor_comp _ _ Hz). reflexivity.
Qed.

Lemma forecast_loop_dry (config : RadarConfig) (np_exp : Q -> Q)
    (u v : ndarray) (dt : Z) (t0 : DateTime.datetime) (steps : list Z) :
  forall (field : ndarray) (acc rs : list ForecastResult.t),
    rect field -> all_cells (fun q => 0 <= q <= 0) field ->
    Forall (fun f => all_cells (fun q => q == 0) (ForecastResult.data f)) acc ->
    forecast_loop config np_exp u v dt t0 steps field acc = Ok rs ->
    Forall (fun f => all_cells (fun q => q == 0) (ForecastResult.data f)) rs.
Proof.
  induction steps as [|step rest IH]; intros field acc rs Hrect Hdry Hacc H;
    cbn [forecast_loop] in H.
  - now injection H as <-.
  - destruct (advect_field field u v (inject_Z dt)) as [moved|] eqn:Ea;
      [|discriminate].
    cbn [bind] in H.
    pose proof (advect_field_rect _ _ _ _ _ Ea) as Hmr.
    pose proof (advect_field_range _ _ _ _ 0 0 _ Hrect Hdry Ea) as Hmd.
    rewrite apply_growth_decay_model_floating in H
      by (eapply advect_field_floating; exact Ea).
    cbn [bind] in H.
    destruct (DateTime.timedelta_minutes _) as [delta|]; [|discriminate].
    cbn [bind] in H.
    destruct (DateTime.add t0 delta) as [ft|]; [|discriminate].
    cbn [bind] in H.
    destruct moved as [mt mrows]. cbn [nd_rows] in H.
    assert (Her : rect (mk_nd floating (map (map (evolve_cell np_exp (inject_Z dt))) mrows)))
      by (now apply (rect_map_cells mt)).
    assert (Hed : all_cells (fun q => 0 <= q <= 0)
                    (mk_nd floating (map (map (evolve_cell np_exp (inject_Z dt))) mrows))).
    { apply (all_cells_map_impl (fun q => 0 <= q <= 0) _ mt); [|exact Hmd].
      intros x. apply evolve_cell_zero. }
    eapply (IH _ _ rs Her Hed); [|exact H].
    apply Forall_app. split; [exact Hacc|].
    constructor; [|constructor]. cbn [ForecastResult.data astype].
    apply (all_cells_map_impl (fun q => 0 <= q <= 0) _ floating); [|exact Hed].
    intros x. apply to_uint8_zero.
Qed.

(** No precipitation is forecast out of none: when every cell of the last
    frame is 0, every cell of every forecast grid is 0, whatever the velocity
    estimate is. *)
Theorem dry_frame_stays_dry
    (config : RadarConfig)
    (calcOpticalFlowPyrLK : ndarray -> ndarray -> list (Q * Q) -> result (list (Q * Q)))
    (gaussian_filter : list (list Q) -> Q -> list (list Q))
    (np_exp : Q -> Q)
    (frames : list RadarFrame.t) (last : RadarFrame.t) (rs : list ForecastResult.t) :
  last_item frames = Ok last ->
  rect (RadarFrame.data last) ->
  all_cells (fun q => q == 0) (RadarFrame.data last) ->
  generate_forecast config calcOpticalFlowPyrLK gaussian_filter np_exp frames = Ok rs ->
  Forall (fun f => all_cells (fun q => q == 0) (ForecastResult.data f)) rs.
Proof.
  intros Hlast Hrect Hdry. unfold generate_forecast.
  destruct (length frames <? 3)%nat eqn:El; [discriminate|].
  apply Nat.ltb_ge in El. unfold try_except.
  destruct (calculate_average_velocity _ _ _) as [[U V]|]; [|discriminate].
  cbn [bind].
  rewrite (last_item_last_k _ _ last) by (try assumption; lia).
  cbn [bind].
  destruct (forecast_loop _ _ _ _ _ _ _ _ _) as [rs'|] eqn:Eloop; [|discriminate].
  intros [= ->].
  eapply forecast_loop_dry; [| | apply Forall_nil | exact Eloop].
  - exact Hrect.
  - unfold all_cells in *. cbn [astype copy nd_rows].
    eapply Forall_impl; [|exact Hdry]. intros row Hrow.
    eapply Forall_impl; [|exact Hrow]. intros q Hq. cbv beta in *. lra.
Qed.

Lemma dry_frame_stays_dry_witness :
  exists rs,
    generate_forecast Standin.two_steps Standin.still_tracker Standin.no_filter
      Standin.exp_approx clearing_frames = Ok rs
    /\ Forall (fun f => all_cells (fun q => q == 0) (ForecastResult.data f)) rs.
Proof.
  eexists. split; [vm_compute; reflexivity|].
  apply (dry_frame_stays_dry Standin.two_steps Standin.still_tracker
           Standin.no_filter Standin.exp_approx clearing_frames
           (Standin.frame 1200000000 (tabulate 2 20 (fun _ _ => 0)))).
  - reflexivity.
  - repeat constructor.
  - repeat constructor.
  - vm_compute. reflexivity.
Defined.

(* ------------------------------------------------------------------ *)
(** ** The window of the sequencer *)

Lemma last_k_app_old {A : Type} (k : nat) (old recent : list A) :
  (k <= length recent)%nat -> last_k k (old ++ recent) = last_k k recent.
Proof.
  intros H. unfold last_k. rewrite length_app, skipn_app.
  rewrite skipn_all2 by lia. cbn [app]. f_equal. lia.
Qed.

(** Frames older than the ten most recent ones have no influence: with at
    least ten frames in [recent], the forecast from [old ++ recent] is the
    forecast from [recent], result or error. *)
Theorem older_frames_are_ignored
    (config : RadarConfig)
    (calcOpticalFlowPyrLK : ndarray -> ndarray -> list (Q * Q) -> result (list (Q * Q)))
    (gaussian_filter : list (list Q) -> Q -> list (list Q))
    (np_exp : Q -> Q)
    (old recent : list RadarFrame.t) :
  (10 <= length recent)%nat ->
  generate_forecast config calcOpticalFlowPyrLK gaussian_filter np_exp (old ++ recent)
  = generate_forecast config calcOpticalFlowPyrLK gaussian_filter np_exp recent.
Proof.
  intros H. unfold generate_forecast. rewrite length_app.
  replace (length old + length recent <? 3)%nat with false
    by (symmetry; apply Nat.ltb_ge; lia).
  replace (length recent <? 3)%nat with false
    by (symmetry; apply Nat.ltb_ge; lia).
  rewrite !Nat.min_l by lia.
  now rewrite last_k_app_old by exact H.
Qed.

Lemma older_frames_are_ignored_witness :
  generate_forecast Standin.two_steps Standin.still_tracker Standin.no_filter
    Standin.exp_approx (Standin.three_frames ++ Standin.ten_frames)
  = generate_forecast Standin.two_steps Standin.still_tracker Standin.no_filter
      Standin.exp_approx Standin.ten_frames.
Proof.
  apply (older_frames_are_ignored Standin.two_steps Standin.still_tracker
           Standin.no_filter Standin.exp_approx Standin.three_frames Standin.ten_frames).
  unfold Standin.ten_frames. rewrite length_map, length_seq. lia.
Defined.

(* ------------------------------------------------------------------ *)
(** ** Frames narrower than one anchor spacing *)

Section NarrowFrames.

Variable calcOpticalFlowPyrLK :
  ndarray -> ndarray -> list (Q * Q) -> result (list (Q * Q)).
Variable gaussian_filter : list (list Q) -> Q -> list (list Q).

(** The tracker answers with one position for every point it is given. *)
Hypothesis tracker_length :
  forall prev next pts out,
    calcOpticalFlowPyrLK prev next pts = Ok out -> length out = length pts.

Lemma narrow_pair_fails (frame1 frame2 : ndarray) :
  (1 <= nrows frame1)%nat -> (1 <= ncols frame1 < 10)%nat ->
  exists e, calculate_optical_flow calcOpticalFlowPyrLK gaussian_filter frame1 frame2
            = Raise e.
Proof.
  intros Hr Hc. unfold calculate_optical_flow, try_except.
  destruct (calcOpticalFlowPyrLK _ _ _) as [flow|e] eqn:Et; cbn [bind].
  - apply tracker_length in Et.
    assert (Hn : (1 <= length (anchor_points frame1))%nat).
    { unfold anchor_points. rewrite length_grid, !length_range10.
      assert ((nrows frame1 + 9) / 10 >= 1)%nat
        by (apply (Nat.div_le_lower_bound _ 10 1); lia).
      assert ((ncols frame1 + 9) / 10 >= 1)%nat
        by (apply (Nat.div_le_lower_bound _ 10 1); lia).
      nia. }
    destruct flow as [|[x y] rest]; [cbn [length] in Et; lia|].
    unfold velocity_samples. cbn [scatter_flow].
    rewrite (Nat.div_small (ncols frame1) 10) by lia.
    cbn [Nat.eqb bind]. eexists. reflexivity.
  - eexists. reflexivity.
Qed.

Lemma velocity_loop_narrow (frames : list RadarFrame.t) (st : velocity_acc) :
  Forall (fun f => (1 <= nrows (RadarFrame.data f))%nat
                   /\ (1 <= ncols (RadarFrame.data f) < 10)%nat) frames ->
  velocity_loop calcOpticalFlowPyrLK gaussian_filter frames st = st.
Proof.
  induction frames as [|f1 rest IH]; intros H; [reflexivity|].
  destruct rest as [|f2 rest']; [reflexivity|].
  cbn [velocity_loop]. inversion H as [|? ? [Hr Hc] Hrest]; subst.
  unfold accumulate_pair.
  destruct (narrow_pair_fails (RadarFrame.data f1) (RadarFrame.data f2) Hr Hc)
    as [e ->].
  now apply IH.
Qed.

End NarrowFrames.

(** Frames of fewer than 10 columns can never be forecast: the index of a
    tracked point is split with 0 anchors per row, every pair is skipped, and
    generate_forecast raises the ForecastError of a window without a valid
    pair. *)
Theorem narrow_frames_never_forecast
    (config : RadarConfig)
    (calcOpticalFlowPyrLK : ndarray -> ndarray -> list (Q * Q) -> result (list (Q * Q)))
    (gaussian_filter : list (list Q) -> Q -> list (list Q))
    (np_exp : Q -> Q)
    (frames : list RadarFrame.t) :
  (forall prev next pts out,
     calcOpticalFlowPyrLK prev next pts = Ok out -> length out = length pts) ->
  (3 <= length frames)%nat ->
  Forall (fun f => (1 <= nrows (RadarFrame.data f))%nat
                   /\ (1 <= ncols (RadarFrame.data f) < 10)%nat) frames ->
  generate_forecast config calcOpticalFlowPyrLK gaussian_filter np_exp frames
  = Raise (forecast_error
      "Forecast generation failed: No valid frame pairs for velocity calculation").
Proof.
  intros Ht Hlen Hnarrow. unfold generate_forecast.
  replace (length frames <? 3)%nat with false by (symmetry; apply Nat.ltb_ge; lia).
  unfold calculate_average_velocity.
  rewrite length_last_k by lia.
  replace (Nat.min 10 (length frames) <? 2)%nat with false
    by (symmetry; apply Nat.ltb_ge; lia).
  rewrite (velocity_loop_narrow _ _ Ht) by (now apply Forall_last_k).
  reflexivity.
Qed.

Lemma narrow_frames_never_forecast_witness :
  generate_forecast default_config Standin.still_tracker Standin.no_filter
    Standin.exp_approx narrow_frames
  = Raise (forecast_error
      "Forecast generation failed: No valid frame pairs for velocity calculation").
Proof.
  apply (narrow_frames_never_forecast default_config Standin.still_tracker
           Standin.no_filter Standin.exp_approx narrow_frames).
  - intros prev next pts out [= <-]. reflexivity.
  - cbn [narrow_frames length]. lia.
  - repeat constructor.
Defined.

(* ------------------------------------------------------------------ *)
(** ** When the aggregator answers *)

Section AggregatorAnswers.

Variable calcOpticalFlowPyrLK :
  ndarray -> ndarray -> list (Q * Q) -> result (list (Q * Q)).
Variable gaussian_filter : list (list Q) -> Q -> list (list Q).

Local Abbreviation flow_of := (calculate_optical_flow calcOpticalFlowPyrLK gaussian_filter).
Local Abbreviation loop := (velocity_loop calcOpticalFlowPyrLK gaussian_filter).
Local Abbreviation estimates := (successful_estimates calcOpticalFlowPyrLK gaussian_filter).

Lemma accumulate_pair_started (f1 f2 : RadarFrame.t) (st : velocity_acc) :
  started st ->
  started (accumulate_pair calcOpticalFlowPyrLK gaussian_filter f1 f2 st).
Proof.
  intros [Hv Hs]. unfold accumulate_pair.
  destruct (flow_of _ _) as [[u v]|]; [|now split].
  destruct (sums st) as [[u_sum v_sum]|] eqn:Es; [|contradiction].
  destruct (iadd u_sum u); [|split; [exact Hv | now rewrite Es]].
  destruct (iadd v_sum v); split; cbn [valid_pairs sums]; try lia; discriminate.
Qed.

Lemma velocity_loop_cons (f1 f2 : RadarFrame.t) (rest : list RadarFrame.t)
    (st : velocity_acc) :
  loop (f1 :: f2 :: rest) st
  = loop (f2 :: rest) (accumulate_pair calcOpticalFlowPyrLK gaussian_filter f1 f2 st).
Proof. reflexivity. Qed.

Lemma successful_estimates_cons (f1 f2 : RadarFrame.t) (rest : list RadarFrame.t) :
  estimates (f1 :: f2 :: rest)
  = match flow_of (RadarFrame.data f1) (RadarFrame.data f2) with
    | Ok uv => uv :: estimates (f2 :: rest)
    | Raise _ => estimates (f2 :: rest)
    end.
Proof. reflexivity. Qed.

Lemma velocity_loop_started (frames : list RadarFrame.t) :
  forall st, started st -> started (loop frames st).
Proof.
  induction frames as [|f1 rest IH]; intros st H; [exact H|].
  destruct rest as [|f2 rest']; [exact H|].
  rewrite velocity_loop_cons. apply IH. now apply accumulate_pair_started.
Qed.

Lemma velocity_loop_fresh (frames : list RadarFrame.t) :
  (estimates frames = [] -> loop frames (mk_acc None 0) = mk_acc None 0)
  /\ (estimates frames <> [] -> started (loop frames (mk_acc None 0))).
Proof.
  induction frames as [|f1 rest IH]; [split; [reflexivity | contradiction]|].
  destruct rest as [|f2 rest']; [split; [reflexivity | contradiction]|].
  rewrite velocity_loop_cons, successful_estimates_cons.
  destruct (flow_of (RadarFrame.data f1) (RadarFrame.data f2)) as [[u v]|e] eqn:Ef.
  - split; [discriminate|]. intros _. apply velocity_loop_started.
    unfold accumulate_pair. rewrite Ef.
    split; cbn [valid_pairs sums]; [lia | discriminate].
  - replace (accumulate_pair calcOpticalFlowPyrLK gaussian_filter f1 f2 (mk_acc None 0))
      with (mk_acc None 0) by (unfold accumulate_pair; now rewrite Ef).
    exact IH.
Qed.

End AggregatorAnswers.

(** calculate_average_velocity answers exactly when the estimate of at least
    one consecutive pair succeeds, whatever the shapes of the frames are; in
    every other case it raises one of its two ForecastErrors. The division
    of a missing sum is never reached. *)
Theorem average_velocity_answers_iff_a_pair_succeeds
    (calcOpticalFlowPyrLK : ndarray -> ndarray -> list (Q * Q) -> result (list (Q * Q)))
    (gaussian_filter : list (list Q) -> Q -> list (list Q))
    (frames : list RadarFrame.t) :
  match calculate_average_velocity calcOpticalFlowPyrLK gaussian_filter frames with
  | Ok _ => successful_estimates calcOpticalFlowPyrLK gaussian_filter frames <> []
  | Raise e =>
      successful_estimates calcOpticalFlowPyrLK gaussian_filter frames = []
      /\ e = forecast_error
               (if (length frames <? 2)%nat
                then "Need at least 2 frames to calculate velocity"
                else "No valid frame pairs for velocity calculation")
  end.
Proof.
  unfold calculate_average_velocity.
  destruct (length frames <? 2)%nat eqn:El.
  - split; [|reflexivity]. apply Nat.ltb_lt in El.
    destruct frames as [|f1 [|f2 rest]]; try reflexivity. cbn [length] in El. lia.
  - destruct (velocity_loop_fresh calcOpticalFlowPyrLK gaussian_filter frames)
      as [Hnone Hsome].
    destruct (successful_estimates calcOpticalFlowPyrLK gaussian_filter frames)
      as [|uv done] eqn:E.
    + rewrite (Hnone eq_refl). cbn [valid_pairs Nat.eqb]. now split.
    + assert (E' : uv :: done <> []) by discriminate.
      destruct (Hsome E') as [Hv Hs].
      destruct (valid_pairs _ =? 0)%nat eqn:Ev; [apply Nat.eqb_eq in Ev; lia|].
      destruct (sums _) as [[u_sum v_sum]|]; [exact E' | contradiction].
Qed.

(* ------------------------------------------------------------------ *)
(** ** A still scene *)

Lemma map_grid {A B C D : Type} (g : A -> B -> C) (h : C -> D)
    (xs : list B) (ys : list A) :
  map h (flat_map (fun y => map (g y) xs) ys)
  = flat_map (fun y => map (fun x => h (g y x)) xs) ys.
Proof.
  induction ys as [|y ys IH]; [reflexivity|].
  cbn [flat_map]. now rewrite map_app, map_map, IH.
Qed.

Lemma anchor_points_cells (frame1 : ndarray) :
  anchor_points frame1
  = map (fun cell => (Qnat (snd cell), Qnat (fst cell))) (anchor_cells frame1).
Proof. unfold anchor_points, anchor_cells. now rewrite map_grid. Qed.

(** When every anchor is tracked to where it was, and the column count is a
    multiple of 10, the velocity arrays before smoothing are 0 in every
    cell. *)
Theorem still_scene_has_zero_samples (frame1 : ndarray) (m : nat) :
  rect frame1 -> ncols frame1 = (10 * m)%nat -> (0 < m)%nat ->
  exists u v,
    velocity_samples frame1 (anchor_points frame1) = Ok (u, v)
    /\ forall i j, get u i j == 0 /\ get v i j == 0.
Proof.
  intros Hrect Hw Hm.
  assert (Hlen : length (anchor_points frame1) = length (anchor_cells frame1))
    by (rewrite anchor_points_cells; apply length_map).
  assert (Hxs : length (range10 (ncols frame1)) = m)
    by (rewrite length_range10, Hw; symmetry; apply Nat.div_unique with 9%nat; lia).
  assert (Hn : length (anchor_cells frame1)
               = ((nrows frame1 + 9) / 10 * m)%nat)
    by (unfold anchor_cells; now rewrite length_grid, Hxs, length_range10).
  assert (Hcell : forall k, (k < length (anchor_points frame1))%nat ->
            nth_error (anchor_cells frame1) k = Some (cell_of m k)).
  { intros k Hk. rewrite Hlen, Hn in Hk.
    apply (nth_error_grid (fun y x => (y, x)) _ m Hxs Hm).
    - apply nth_error_range10. apply Nat.Div0.div_lt_upper_bound. lia.
    - rewrite Hw. apply nth_error_range10.
      pose proof (Nat.mod_upper_bound k m ltac:(lia)) as Hb.
      replace ((10 * m + 9) / 10)%nat with m
        by (apply Nat.div_unique with 9%nat; lia).
      exact Hb. }
  assert (Hrows : forall k, (k < length (anchor_points frame1))%nat ->
            (fst (cell_of m (0 + k)) < nrows frame1)%nat).
  { intros k Hk. rewrite Hlen, Hn in Hk. cbn [cell_of fst plus].
    assert (Hq : (k / m < (nrows frame1 + 9) / 10)%nat)
      by (apply Nat.Div0.div_lt_upper_bound; lia).
    pose proof (Nat.Div0.mul_div_le (nrows frame1 + 9) 10). lia. }
  destruct (scatter_flow_cells frame1 m Hw Hm (anchor_points frame1) 0%nat _ _
              (full_zeros_like frame1 Hrect) (full_zeros_like frame1 Hrect) Hrows)
    as [u [v [Es [Hset Hkeep]]]].
  exists u, v. split; [exact Es|]. intros i j.
  destruct (in_dec (fun a b : nat * nat =>
                      ltac:(decide equality; apply Nat.eq_dec) : {a = b} + {a <> b})
                   (i, j) (anchor_cells frame1)) as [Hin | Hnot].
  - apply In_nth_error in Hin as [k Hk].
    assert (Hkl : (k < length (anchor_points frame1))%nat)
      by (rewrite Hlen; apply nth_error_Some; congruence).
    assert (Hc : cell_of m k = (i, j))
      by (pose proof (Hcell k Hkl) as Hc; rewrite Hk in Hc; congruence).
    assert (Ef : nth_error (anchor_points frame1) k = Some (Qnat j, Qnat i))
      by (rewrite anchor_points_cells, nth_error_map, Hk; reflexivity).
    destruct (Hset k _ _ Ef) as [H1 H2].
    change (0 + k)%nat with k in H1, H2.
    rewrite Hc in H1, H2. cbn [fst snd] in H1, H2.
    rewrite H1, H2. split; ring.
  - destruct (Hkeep i j) as [K1 K2].
    { intros k Hk E. apply Hnot. rewrite E. cbn [plus].
      apply (nth_error_In _ k). now apply Hcell. }
    rewrite K1, K2, !get_zeros_like. split; reflexivity.
Qed.

Lemma still_scene_has_zero_samples_witness :
  exists u v,
    velocity_samples (mk_nd uint8 (tabulate 11 20 (fun _ _ => 0)))
      (anchor_points (mk_nd uint8 (tabulate 11 20 (fun _ _ => 0)))) = Ok (u, v)
    /\ forall i j, get u i j == 0 /\ get v i j == 0.
Proof.
  apply (still_scene_has_zero_samples
           (mk_nd uint8 (tabulate 11 20 (fun _ _ => 0))) 2).
  - repeat constructor.
  - reflexivity.
  - lia.
Defined.

(* ------------------------------------------------------------------ *)
(** ** How much the evolution model can add *)

Lemma growth_factor_ge_1 (dt : Q) : 0 <= dt -> 1 <= growth_factor dt.
Proof.
  intros H. unfold growth_factor.
  assert (0 <= (5 # 100) * dt / 3600) by (apply Qle_shift_div_l; [reflexivity | lra]).
  lra.
Qed.

Lemma decay_factor_le_1 (dt : Q) : 0 <= dt -> decay_factor dt <= 1.
Proof.
  intros H. unfold decay_factor.
  assert (0 <= (15 # 100) * dt / 3600) by (apply Qle_shift_div_l; [reflexivity | lra]).
  lra.
Qed.

Lemma clip1_le (x b : Q) : 0 <= b -> x <= b -> clip1 0 255 x <= b.
Proof.
  intros Hb Hx. unfold clip1.
  eapply Qle_trans; [apply Q.le_min_l|]. now apply Q.max_lub.
Qed.

Lemma evolve_cell_bounds (np_exp : Q -> Q) (dt x : Q) :
  0 <= dt -> 0 <= np_exp (- (1 # 10) * dt / 3600) <= 1 -> 0 <= x ->
  evolve_cell np_exp dt x <= x * growth_factor dt
  /\ (in_growth_band x = false -> evolve_cell np_exp dt x <= x).
Proof.
  intros Hdt He Hx. unfold evolve_cell.
  pose proof (growth_factor_ge_1 dt Hdt) as Hg.
  pose proof (decay_factor_le_1 dt Hdt) as Hd.
  set (e := np_exp _) in *. set (g := growth_factor dt) in *.
  set (d := decay_factor dt) in *. destruct He as [He0 He1].
  assert (Hxg : 0 <= x * g) by nra.
  assert (Hxe : x * e <= x) by nra.
  destruct (in_growth_band x) eqn:Eb.
  - unfold in_growth_band in Eb. apply andb_true_iff in Eb as [_ E150].
    apply lt_true in E150.
    assert (G : gt 180 x = false) by (apply gt_false; lra).
    rewrite G. split; [|discriminate].
    apply clip1_le; [exact Hxg|].
    assert (x * g * e <= x * g) by nra. lra.
  - destruct (gt 180 x) eqn:E180.
    + assert (Hle : x * d * e <= x).
      { destruct (Qlt_le_dec d 0) as [Hneg | Hpos].
        - assert (x * d <= 0) by nra. assert (x * d * e <= 0) by nra. lra.
        - assert (0 <= x * d) by nra. assert (x * d <= x) by nra.
          assert (x * d * e <= x * d) by nra. lra. }
      split; [|intros _]; apply clip1_le; try assumption; nra.
    + split; [|intros _]; apply clip1_le; try assumption; nra.
Qed.

Lemma Forall2_map_right {A B : Type} (R : A -> B -> Prop) (f : A -> B) (l : list A) :
  Forall (fun x => R x (f x)) l -> Forall2 R l (map f l).
Proof. induction 1; constructor; assumption. Qed.

(** With a time step that is not negative and a decay factor between 0 and
    1, the evolution model adds to no cell more than the growth rate allows,
    and only to a cell of the growth band: a cell that is not negative comes
    out at most at its value times 1 + 0.05 dt / 3600, and at most at its
    own value when it is outside the band. An 8-bit field, which the model
    returns as it is, is included. *)
Theorem evolution_adds_only_in_growth_band (np_exp : Q -> Q) (field : ndarray) (dt : Q) :
  0 <= dt -> 0 <= np_exp (- (1 # 10) * dt / 3600) <= 1 ->
  all_cells (fun x => 0 <= x) field ->
  exists out,
    apply_growth_decay_model np_exp field dt = Ok out
    /\ Forall2 (Forall2 (fun x y =>
                           y <= x * growth_factor dt
                           /\ (in_growth_band x = false -> y <= x)))
               (nd_rows field) (nd_rows out).
Proof.
  intros Hdt He Hpos. pose proof (growth_factor_ge_1 dt Hdt) as Hg.
  destruct (nd_dtype field) eqn:Et.
  - exists field. split.
    + unfold apply_growth_decay_model, try_except.
      now rewrite growth_decay_body_uint8 by exact Et.
    + unfold all_cells in Hpos.
      rewrite <- (map_id (nd_rows field)) at 2.
      apply Forall2_map_right. eapply Forall_impl; [|exact Hpos].
      intros row Hrow. cbv beta.
      rewrite <- (map_id row) at 2.
      apply Forall2_map_right. eapply Forall_impl; [|exact Hrow].
      intros x Hx. cbv beta in *. split; [nra | intros _; lra].
  - eexists. split; [now apply apply_growth_decay_model_floating|].
    cbn [nd_rows]. unfold all_cells in Hpos.
    apply Forall2_map_right. eapply Forall_impl; [|exact Hpos].
    intros row Hrow. cbv beta.
    apply Forall2_map_right. eapply Forall_impl; [|exact Hrow].
    intros x Hx. cbv beta in *. now apply evolve_cell_bounds.
Qed.

Lemma evolution_adds_only_in_growth_band_witness :
  exists out,
    apply_growth_decay_model Standin.exp_approx
      (mk_nd floating [Standin.row20; Standin.row20]) 600 = Ok out
    /\ Forall2 (Forall2 (fun x y =>
                           y <= x * growth_factor 600
                           /\ (in_growth_band x = false -> y <= x)))
               (nd_rows (mk_nd floating [Standin.row20; Standin.row20]))
               (nd_rows out).
Proof.
  apply (evolution_adds_only_in_growth_band Standin.exp_approx
           (mk_nd floating [Standin.row20; Standin.row20]) 600).
  - discriminate.
  - split; vm_compute; discriminate.
  - repeat constructor; vm_compute; discriminate.
Defined.

(* ------------------------------------------------------------------ *)
(** ** The caller of the forecaster *)

Section ProcessCycleLemmas.

Variable load_hdf5_data : string -> result RadarFrame.t.
Variable process_to_png : RadarFrame.t -> bool -> result string.

Lemma length_last_ten {A : Type} (l : list A) : (length (Worker.last_ten l) <= 10)%nat.
Proof. unfold Worker.last_ten. rewrite length_skipn. lia. Qed.

Lemma length_load_loop (files : list string) :
  forall acc, (length (Worker.load_loop load_hdf5_data files acc)
               <= length files + length acc)%nat.
Proof.
  induction files as [|f rest IH]; intros acc; cbn [Worker.load_loop length].
  - lia.
  - destruct (load_hdf5_data f).
    + specialize (IH (acc ++ [a])). rewrite length_app in IH. cbn [length] in IH. lia.
    + specialize (IH acc). lia.
Qed.

Lemma length_png_loop (forecasts : list ForecastResult.t) :
  forall acc, (length (Worker.png_loop process_to_png forecasts acc)
               <= length forecasts + length acc)%nat.
Proof.
  induction forecasts as [|f rest IH]; intros acc; cbn [Worker.png_loop length].
  - lia.
  - destruct (process_to_png _ _).
    + specialize (IH (acc ++ [a])). rewrite length_app in IH. cbn [length] in IH. lia.
    + lia.
Qed.

End ProcessCycleLemmas.

Lemma length_range_from_1 (n : Z) : length (range_from_1 n) = Z.to_nat n.
Proof. unfold range_from_1. now rewrite length_map, length_seq. Qed.

(** process_cycle and the forecaster fit: the frames it loads are at most
    ten, so the forecaster's window is all of them; the forecaster is called
    on three frames or more only, so an error it raises is never the one of
    its frame-count check but a wrapped one; and step 4 leaves at most
    forecast_steps picture paths. *)
Theorem process_cycle_calls_forecaster_in_range
    (config : RadarConfig)
    (calcOpticalFlowPyrLK : ndarray -> ndarray -> list (Q * Q) -> result (list (Q * Q)))
    (gaussian_filter : list (list Q) -> Q -> list (list Q))
    (np_exp : Q -> Q)
    (load_hdf5_data : string -> result RadarFrame.t)
    (process_to_png : RadarFrame.t -> bool -> result string)
    (hdf5_files : list string) :
  (length (Worker.load_frames load_hdf5_data hdf5_files) <= 10)%nat
  /\ recent_window (Worker.load_frames load_hdf5_data hdf5_files)
     = Worker.load_frames load_hdf5_data hdf5_files
  /\ (forall e,
        (3 <=? length (Worker.load_frames load_hdf5_data hdf5_files))%nat = true ->
        generate_forecast config calcOpticalFlowPyrLK gaussian_filter np_exp
          (Worker.load_frames load_hdf5_data hdf5_files) = Raise e ->
        exists m, e = forecast_error ("Forecast generation failed: " ++ m))
  /\ (length (Worker.forecast_png_files config calcOpticalFlowPyrLK gaussian_filter
                np_exp process_to_png (Worker.load_frames load_hdf5_data hdf5_files))
      <= Z.to_nat (forecast_steps config))%nat.
Proof.
  set (frames := Worker.load_frames load_hdf5_data hdf5_files).
  assert (Hlen : (length frames <= 10)%nat).
  { unfold frames, Worker.load_frames.
    pose proof (length_load_loop load_hdf5_data
                  (Worker.last_ten (stable_sort String.leb hdf5_files)) []) as H.
    pose proof (length_last_ten (stable_sort String.leb hdf5_files)).
    cbn [length] in H. lia. }
  split; [exact Hlen|]. split; [|split].
  - unfold recent_window. rewrite Nat.min_r by exact Hlen. apply last_k_all.
  - intros e Hguard. apply Nat.leb_le in Hguard. unfold generate_forecast.
    replace (length frames <? 3)%nat with false by (symmetry; apply Nat.ltb_ge; lia).
    unfold try_except. destruct (_ <- _ ;; _) as [rs|e0]; [discriminate|].
    intros [= <-]. now exists (exn_msg e0).
  - unfold Worker.forecast_png_files.
    destruct (3 <=? length frames)%nat; [|cbn [length]; lia].
    destruct (generate_forecast _ _ _ _ frames) as [rs|] eqn:Eg; [|cbn [length]; lia].
    apply generate_forecast_records in Eg as [last [_ HF]].
    apply Forall2_length in HF. rewrite length_range_from_1 in HF.
    pose proof (length_png_loop process_to_png rs []) as H. cbn [length] in H. lia.
Qed.

(* ------------------------------------------------------------------ *)
(** ** File names *)

Lemma is_invalid_spec (c : ascii) :
  Utils.is_invalid c = true <-> In c Utils.invalid_chars.
Proof.
  unfold Utils.is_invalid. rewrite existsb_exists. split.
  - intros [x [Hx E]]. apply Ascii.eqb_eq in E. now subst.
  - intros H. exists c. split; [exact H | apply Ascii.eqb_refl].
Qed.

Lemma sanitize_filename_filter (filename : string) :
  list_ascii_of_string (Utils.sanitize_filename filename)
  = filter (fun c => negb (Utils.is_invalid c)) (list_ascii_of_string filename).
Proof.
  induction filename as [|c rest IH]; [reflexivity|].
  cbn [Utils.sanitize_filename list_ascii_of_string filter].
  destruct (Utils.is_invalid c); cbn [negb list_ascii_of_string]; now rewrite IH.
Qed.

Lemma sanitize_filename_clean (filename : string) :
  (forall c, In c Utils.invalid_chars -> ~ In c (list_ascii_of_string filename)) ->
  Utils.sanitize_filename filename = filename.
Proof.
  induction filename as [|c rest IH]; intros H; [reflexivity|].
  cbn [Utils.sanitize_filename].
  destruct (Utils.is_invalid c) eqn:E.
  - apply is_invalid_spec in E. exfalso. apply (H c E). now left.
  - f_equal. apply IH. intros x Hx Hin. apply (H x Hx). now right.
Qed.

(** sanitize_filename keeps the characters that are none of the nine of its
    class, in their order, and drops the others: none of the nine is left, a
    name without them is returned as it is, and sanitizing twice is
    sanitizing once. *)
Theorem sanitize_filename_removes_invalid_chars (filename : string) :
  list_ascii_of_string (Utils.sanitize_filename filename)
  = filter (fun c => negb (Utils.is_invalid c)) (list_ascii_of_string filename)
  /\ (forall c, In c Utils.invalid_chars ->
                ~ In c (list_ascii_of_string (Utils.sanitize_filename filename)))
  /\ ((forall c, In c Utils.invalid_chars -> ~ In c (list_ascii_of_string filename)) ->
      Utils.sanitize_filename filename = filename)
  /\ Utils.sanitize_filename (Utils.sanitize_filename filename)
     = Utils.sanitize_filename filename.
Proof.
  assert (Hnone : forall c, In c Utils.invalid_chars ->
            ~ In c (list_ascii_of_string (Utils.sanitize_filename filename))).
  { intros c Hc Hin. rewrite sanitize_filename_filter in Hin.
    apply filter_In in Hin as [_ Hin].
    apply is_invalid_spec in Hc. rewrite Hc in Hin. discriminate. }
  split; [apply sanitize_filename_filter|]. split; [exact Hnone|].
  split; [apply sanitize_filename_clean|].
  now apply sanitize_filename_clean.
Qed.

(* ------------------------------------------------------------------ *)
(** ** Replacing in strings *)

Lemma prefix_cons_ne (c0 c : ascii) (old s : string) :
  c <> c0 -> prefix (String c0 old) (String c s) = false.
Proof.
  intros H. cbn [prefix]. destruct (ascii_dec c0 c); [congruence | reflexivity].
Qed.

Lemma lacks_cons (c0 c : ascii) (s : string) :
  lacks c0 (String c s) = true <-> c <> c0 /\ lacks c0 s = true.
Proof.
  unfold lacks. cbn [list_ascii_of_string forallb].
  rewrite andb_true_iff, negb_true_iff. split; intros [H1 H2]; split; auto.
  - intros E. apply Ascii.eqb_eq in E. congruence.
  - apply Ascii.eqb_neq. exact H1.
Qed.

Lemma lacks_app (c0 : ascii) (s t : string) :
  lacks c0 (s ++ t) = lacks c0 s && lacks c0 t.
Proof.
  induction s as [|c s IH]; [reflexivity|].
  unfold lacks in *. cbn [append list_ascii_of_string forallb].
  now rewrite IH, andb_assoc.
Qed.

(** A string without the first character of [old] holds no occurrence. *)
Lemma replace_from_lacks (c0 : ascii) (old new s : string) :
  lacks c0 s = true -> Str.replace_from 0 (String c0 old) new s = s.
Proof.
  induction s as [|c s IH]; intros H; [reflexivity|].
  apply lacks_cons in H as [Hc Hs].
  cbn [Str.replace_from]. rewrite (prefix_cons_ne c0 c old s Hc).
  now rewrite IH.
Qed.

Lemma replace_from_app_lacks (c0 : ascii) (old new pre s : string) :
  lacks c0 pre = true ->
  Str.replace_from 0 (String c0 old) new (pre ++ s)
  = (pre ++ Str.replace_from 0 (String c0 old) new s)%string.
Proof.
  induction pre as [|c pre IH]; intros H; [reflexivity|].
  apply lacks_cons in H as [Hc Hs].
  cbn [append Str.replace_from].
  rewrite (prefix_cons_ne c0 c old (pre ++ s) Hc).
  now rewrite IH.
Qed.

Lemma append_empty_r (s : string) : (s ++ EmptyString)%string = s.
Proof. induction s as [|c s IH]; [reflexivity|]. cbn [append]. now rewrite IH. Qed.

Lemma append_assoc (s t u : string) : ((s ++ t) ++ u = s ++ (t ++ u))%string.
Proof. induction s as [|c s IH]; [reflexivity|]. cbn [append]. now rewrite IH. Qed.

(* ------------------------------------------------------------------ *)
(** ** The Danish month names *)

Lemma lacks_all_In (cs : list ascii) (s : string) (c : ascii) :
  lacks_all cs s = true -> In c cs -> lacks c s = true.
Proof.
  unfold lacks_all. rewrite forallb_forall. auto.
Qed.

Lemma prefix_empty (s : string) : prefix EmptyString s = true.
Proof. now destruct s. Qed.

Ltac month_layer pre post P Q :=
  rewrite (replace_from_app_lacks _ _ _ pre) by (apply P; cbn; tauto);
  cbn; rewrite ?prefix_empty; cbn;
  rewrite (replace_from_lacks _ _ _ post) by (apply Q; cbn; tauto).

(** In a text whose other characters are none of the capital letters that
    begin a month name (a date written with digits, points, blanks, colons
    and the like), translate_month_to_danish replaces the English name of the
    month by the Danish one and leaves the rest as it is. *)
Theorem translate_month_in_timestamp_text (em : string * string) (pre post : string) :
  In em Utils.months_translation ->
  lacks_all month_initials pre = true ->
  lacks_all month_initials post = true ->
  Utils.translate_month_to_danish (pre ++ fst em ++ post)
  = (pre ++ snd em ++ post)%string.
Proof.
  intros Hin Hpre Hpost.
  assert (P : forall c, In c month_initials -> lacks c pre = true)
    by (intros c; now apply lacks_all_In).
  assert (Q : forall c, In c month_initials -> lacks c post = true)
    by (intros c; now apply lacks_all_In).
  unfold Utils.months_translation in Hin. cbn [In] in Hin.
  unfold Utils.translate_month_to_danish, Utils.months_translation.
  cbn [fold_left fst snd]. unfold Str.replace.
  repeat (destruct Hin as [<-|Hin]; [cbn [fst snd]; do 12 month_layer pre post P Q; reflexivity|]).
  destruct Hin.
Qed.

Lemma translate_month_in_timestamp_text_witness :
  Utils.translate_month_to_danish ("01. " ++ "May" ++ " 2024 - 12:00")
  = ("01. " ++ "maj" ++ " 2024 - 12:00")%string.
Proof.
  apply (translate_month_in_timestamp_text ("May", "maj")%string
           "01. " " 2024 - 12:00").
  - cbn. tauto.
  - reflexivity.
  - reflexivity.
Defined.

(* ------------------------------------------------------------------ *)
(** ** Timestamps in file names *)

Lemma before_dot_app (stem rest : string) :
  lacks "." stem = true ->
  Str.before_dot (stem ++ String "." rest) = stem.
Proof.
  induction stem as [|c stem IH]; intros H.
  - reflexivity.
  - apply lacks_cons in H as [Hc Hs]. cbn [append Str.before_dot].
    apply Ascii.eqb_neq in Hc. rewrite Hc. now rewrite IH.
Qed.

Lemma before_dot_lacks (stem : string) :
  lacks "." stem = true -> Str.before_dot stem = stem.
Proof.
  induction stem as [|c stem IH]; intros H; [reflexivity|].
  apply lacks_cons in H as [Hc Hs]. cbn [Str.before_dot].
  apply Ascii.eqb_neq in Hc. rewrite Hc. now rewrite IH.
Qed.

(** utils.extract_timestamp reads the stem of a name: for a stem without a
    dot and without an underscore, the name with any extension, and the name
    with the marker of the first forecast and any extension, are answered as
    the stem itself is. *)
Theorem extract_timestamp_reads_the_stem
    (strptime : string -> result DateTime.datetime) (stem ext : string) :
  lacks "." stem = true -> lacks "_" stem = true ->
  Utils.extract_timestamp strptime (stem ++ "." ++ ext)
  = Utils.extract_timestamp strptime stem
  /\ Utils.extract_timestamp strptime (stem ++ "_forecast_1" ++ "." ++ ext)
     = Utils.extract_timestamp strptime stem.
Proof.
  intros Hdot Hus. unfold Utils.extract_timestamp.
  assert (E0 : Str.replace "_forecast_1" EmptyString stem = stem)
    by (unfold Str.replace; now apply replace_from_lacks).
  rewrite (before_dot_lacks stem Hdot), E0. split.
  - change (stem ++ "." ++ ext)%string with (stem ++ String "." ext)%string.
    now rewrite before_dot_app, E0 by exact Hdot.
  - replace (stem ++ "_forecast_1" ++ "." ++ ext)%string
      with ((stem ++ "_forecast_1") ++ String "." ext)%string
      by (now rewrite append_assoc).
    rewrite before_dot_app by (rewrite lacks_app, Hdot; reflexivity).
    unfold Str.replace. rewrite replace_from_app_lacks by exact Hus.
    cbn. now rewrite append_empty_r.
Qed.

Lemma extract_timestamp_reads_the_stem_witness :
  Utils.extract_timestamp (fun _ => Ok 0%Z)
    ("2024-01-01T12-00-00Z" ++ "." ++ "png")
  = Utils.extract_timestamp (fun _ => Ok 0%Z) "2024-01-01T12-00-00Z"
  /\ Utils.extract_timestamp (fun _ => Ok 0%Z)
       ("2024-01-01T12-00-00Z" ++ "_forecast_1" ++ "." ++ "png")
     = Utils.extract_timestamp (fun _ => Ok 0%Z) "2024-01-01T12-00-00Z".
Proof.
  apply (extract_timestamp_reads_the_stem (fun _ => Ok 0%Z)
           "2024-01-01T12-00-00Z" "png"); reflexivity.
Defined.

(* ------------------------------------------------------------------ *)
(** ** Sorting *)

Lemma insert_sorted_perm {A : Type} (leb : A -> A -> bool) (x : A) (l : list A) :
  Permutation (insert_sorted leb x l) (x :: l).
Proof.
  induction l as [|y rest IH]; cbn [insert_sorted]; [reflexivity|].
  destruct (leb x y); [reflexivity|].
  rewrite IH. apply perm_swap.
Qed.

Lemma stable_sort_perm {A : Type} (leb : A -> A -> bool) (l : list A) :
  Permutation (stable_sort leb l) l.
Proof.
  induction l as [|x rest IH]; [reflexivity|].
  unfold stable_sort in *. cbn [fold_right].
  rewrite insert_sorted_perm. now constructor.
Qed.

Section SortByKey.

Context {A : Type}.
Variable key : A -> Z.

Local Abbreviation leb := (fun a b : A => (key a <=? key b)%Z).
Local Abbreviation le := (fun a b : A => (key a <= key b)%Z).

Lemma insert_sorted_sorted (x : A) (l : list A) :
  StronglySorted le l -> StronglySorted le (insert_sorted leb x l).
Proof.
  induction l as [|y rest IH]; intros H; cbn [insert_sorted].
  - constructor; constructor.
  - inversion H as [|? ? Hrest Hy]; subst.
    destruct (key x <=? key y)%Z eqn:E.
    + apply Z.leb_le in E. constructor; [exact H|].
      constructor; [exact E|].
      eapply Forall_impl; [|exact Hy]. cbv beta. intros a Ha. lia.
    + apply Z.leb_gt in E. constructor; [now apply IH|].
      apply (Permutation_Forall (Permutation_sym (insert_sorted_perm leb x rest))).
      constructor; [lia | exact Hy].
Qed.

Lemma stable_sort_sorted (l : list A) : StronglySorted le (stable_sort leb l).
Proof.
  induction l as [|x rest IH]; [constructor|].
  unfold stable_sort in *. cbn [fold_right]. now apply insert_sorted_sorted.
Qed.

End SortByKey.

(* ------------------------------------------------------------------ *)
(** ** Numbers as text *)

Lemma string_of_uint_chars (d : Decimal.uint) :
  forallb is_number_char (list_ascii_of_string (NilEmpty.string_of_uint d)) = true.
Proof. induction d; cbn [NilEmpty.string_of_uint list_ascii_of_string forallb]; auto. Qed.

Lemma of_int_chars (z : Z) :
  forallb is_number_char (list_ascii_of_string (Str.of_int z)) = true.
Proof.
  unfold Str.of_int, NilZero.string_of_int, NilZero.string_of_uint.
  destruct (Z.to_int z) as [d|d]; destruct d;
    cbn [list_ascii_of_string forallb]; try reflexivity;
    try (rewrite string_of_uint_chars; reflexivity).
Qed.

Lemma of_int_nonempty (z : Z) : Str.of_int z <> EmptyString.
Proof.
  unfold Str.of_int, NilZero.string_of_int, NilZero.string_of_uint.
  destruct (Z.to_int z) as [d|d]; destruct d; discriminate.
Qed.

Lemma of_int_inj (a b : Z) : Str.of_int a = Str.of_int b -> a = b.
Proof.
  unfold Str.of_int. intros H.
  assert (Hn : forall z, Z.to_int z <> Decimal.Pos Decimal.Nil
                         /\ Z.to_int z <> Decimal.Neg Decimal.Nil).
  { intros [|p|p]; split; cbn [Z.to_int]; try discriminate;
      intros [= E]; now apply DecimalPos.Unsigned.to_uint_nonnil in E. }
  apply DecimalZ.to_int_inj.
  assert (E : Some (Z.to_int a) = Some (Z.to_int b)).
  { rewrite <- (NilZero.isi (Z.to_int a)) by apply Hn.
    rewrite <- (NilZero.isi (Z.to_int b)) by apply Hn. now rewrite H. }
  now injection E.
Qed.

(** The characters of a number are none of the dot, the slash and the
    letter Z. *)
Lemma number_char_plain (c : ascii) :
  is_number_char c = true ->
  c <> "."%char /\ c <> "/"%char /\ c <> "Z"%char /\ c <> "z"%char.
Proof.
  unfold is_number_char. cbn [existsb]. rewrite !orb_true_iff.
  intros H. repeat destruct H as [H|H];
    try (apply Ascii.eqb_eq in H; subst; repeat split; discriminate).
  discriminate.
Qed.

(* ------------------------------------------------------------------ *)
(** ** The upload of src/master.py *)

Lemma list_ascii_of_string_app (s t : string) :
  list_ascii_of_string (s ++ t)
  = list_ascii_of_string s ++ list_ascii_of_string t.
Proof.
  induction s as [|c s IH]; [reflexivity|].
  cbn [append list_ascii_of_string]. now rewrite IH.
Qed.

Lemma list_ascii_of_string_inj (s t : string) :
  list_ascii_of_string s = list_ascii_of_string t -> s = t.
Proof.
  intros H. rewrite <- (string_of_list_ascii_of_string s),
              <- (string_of_list_ascii_of_string t). now rewrite H.
Qed.

Lemma append_inv_head (p a b : string) : (p ++ a = p ++ b)%string -> a = b.
Proof.
  intros H. apply list_ascii_of_string_inj.
  apply (f_equal list_ascii_of_string) in H.
  rewrite !list_ascii_of_string_app in H. now apply app_inv_head in H.
Qed.

Lemma append_inv_tail (a b t : string) : (a ++ t = b ++ t)%string -> a = b.
Proof.
  intros H. apply list_ascii_of_string_inj.
  apply (f_equal list_ascii_of_string) in H.
  rewrite !list_ascii_of_string_app in H. now apply app_inv_tail in H.
Qed.

(** The key of a number is the folder, a slash where one is missing, and
    the name. *)
Lemma path_join_number (sub : string) (n : Z) :
  path_join sub (Str.of_int n ++ ".png")
  = ((if (String.eqb sub EmptyString || Str.endswith sub "/")%bool
      then sub else sub ++ "/") ++ Str.of_int n ++ ".png")%string.
Proof.
  unfold path_join.
  pose proof (of_int_chars n) as Hc. pose proof (of_int_nonempty n) as Hn.
  destruct (Str.of_int n) as [|c s]; [contradiction|].
  cbn [list_ascii_of_string forallb] in Hc. apply andb_true_iff in Hc as [Hc _].
  apply number_char_plain in Hc as [_ [Hslash _]].
  cbn [append prefix]. destruct (ascii_dec "/" c) as [E|_]; [congruence|].
  destruct (_ || _)%bool; [reflexivity|]. now rewrite append_assoc.
Qed.

Lemma s3_key_inj (sub : string) (a b : Z) :
  path_join sub (Str.of_int a ++ ".png") = path_join sub (Str.of_int b ++ ".png") ->
  a = b.
Proof.
  rewrite !path_join_number. intros H.
  apply append_inv_head in H. apply append_inv_tail in H. now apply of_int_inj.
Qed.

Lemma NoDup_map_injective {A B : Type} (f : A -> B) (l : list A) :
  (forall x y, f x = f y -> x = y) -> NoDup l -> NoDup (map f l).
Proof.
  intros Hf H. induction H as [|x l Hx Hl IH]; cbn [map]; constructor; [|exact IH].
  intros Hin. apply in_map_iff in Hin as [y [E Hy]]. apply Hf in E. now subst.
Qed.

Lemma map_fst_combine_seq {A B : Type} (g : nat -> B) (start : nat) (l : list A) :
  map (fun kf : nat * A => g (fst kf)) (combine (seq start (length l)) l)
  = map g (seq start (length l)).
Proof.
  revert start. induction l as [|x l IH]; intros start; [reflexivity|].
  cbn [length seq combine map fst]. now rewrite IH.
Qed.

Lemma filter_andb {A : Type} (p q : A -> bool) (l : list A) :
  filter (fun x => p x && q x) l = filter q (filter p l).
Proof.
  induction l as [|x l IH]; [reflexivity|]. cbn [filter].
  destruct (p x); cbn [andb filter]; [destruct (q x)|]; now rewrite IH.
Qed.

Section UploadLemmas.

Variable strptime : string -> result DateTime.datetime.

Lemma files_with_timestamps_spec (files : list string)
    (fwt : list (string * DateTime.datetime)) :
  Master.files_with_timestamps strptime files = Ok fwt ->
  fwt = map (fun f => (f, stamp strptime f)) (filter (parses strptime) files).
Proof.
  revert fwt. induction files as [|f rest IH]; intros fwt H;
    cbn [Master.files_with_timestamps] in H.
  - now injection H as <-.
  - unfold Master.extract_timestamp in H. cbn [filter].
    destruct (strptime (Str.before_dot f)) as [t|e] eqn:Et; cbn [bind] in H.
    + assert (Hp : parses strptime f = true) by (unfold parses; now rewrite Et).
      assert (Hs : stamp strptime f = t) by (unfold stamp; now rewrite Et).
      destruct (Master.files_with_timestamps strptime rest) as [tl|]; [|discriminate].
      cbn [bind] in H. injection H as <-. rewrite Hp. cbn [map].
      rewrite Hs. f_equal. now apply IH.
    + assert (Hp : parses strptime f = false) by (unfold parses; now rewrite Et).
      destruct (isinstance e "ValueError"); [|discriminate]. cbn [bind] in H.
      destruct (Master.files_with_timestamps strptime rest) as [tl|]; [|discriminate].
      cbn [bind] in H. injection H as <-. rewrite Hp. now apply IH.
Qed.

Lemma files_with_timestamps_none (files : list string) :
  Forall (fun f => Master.extract_timestamp strptime f = Ok None) files ->
  Master.files_with_timestamps strptime files = Ok [].
Proof.
  induction 1 as [|f rest Hf _ IH]; [reflexivity|].
  cbn [Master.files_with_timestamps]. rewrite Hf. cbn [bind]. now rewrite IH.
Qed.

Lemma upload_loop_some (sub folder : string) (start_index : Z)
    (files : list (string * DateTime.datetime)) :
  forall idx,
    Master.upload_loop (Some sub) folder start_index idx files
    = Ok (map (fun kf : nat * string =>
                 (path_join folder (snd kf),
                  path_join sub (Str.of_int (start_index + Z.of_nat (fst kf)) ++ ".png")))
              (combine (seq idx (length files)) (map fst files))).
Proof.
  induction files as [|[filename t] rest IH]; intros idx; [reflexivity|].
  cbn [Master.upload_loop Master.s3_key_of bind]. rewrite IH. reflexivity.
Qed.

Lemma sorted_names (l : list (string * DateTime.datetime)) :
  Forall (fun p => snd p = stamp strptime (fst p)) l ->
  StronglySorted (fun p q : string * DateTime.datetime => (snd p <= snd q)%Z) l ->
  StronglySorted (fun a b => (stamp strptime a <= stamp strptime b)%Z) (map fst l).
Proof.
  intros Hl H. induction H as [|p l Hs IH Hp]; cbn [map]; constructor.
  - apply IH. now inversion Hl.
  - inversion Hl as [|? ? Ep Hrest]; subst.
    rewrite Forall_map. rewrite Forall_forall in Hp, Hrest |- *.
    intros q Hq. specialize (Hp q Hq). specialize (Hrest q Hq). cbv beta in *.
    now rewrite <- Ep, <- Hrest.
Qed.

End UploadLemmas.

(** upload_and_rename_files uploads the pictures of the folder in the order
    of their timestamps under consecutive numbers: the files it uploads are
    the names that end in .png and whose stem parses, each one once; they
    are taken in the order of their timestamps; the i-th of them (from 0) gets
    the key of the number start_index + i; and no two of them get one key. *)
Theorem upload_numbers_pictures_in_time_order
    (strptime : string -> result DateTime.datetime)
    (sub : string) (listing : list string) (folder : string) (start_index : Z)
    (calls : list (string * string)) :
  Master.upload_and_rename_files strptime (Some sub) listing folder start_index
  = Ok calls ->
  exists chron,
    Permutation chron
      (filter (fun f => Str.endswith f ".png" && parses strptime f) listing)
    /\ StronglySorted (fun a b => (stamp strptime a <= stamp strptime b)%Z) chron
    /\ calls = numbered folder sub start_index chron
    /\ NoDup (map snd calls).
Proof.
  unfold Master.upload_and_rename_files.
  destruct (Master.files_with_timestamps _ _) as [fwt|] eqn:Ef; [|discriminate].
  cbn [bind]. apply files_with_timestamps_spec in Ef.
  set (sorted := stable_sort _ fwt).
  assert (Hperm : Permutation sorted fwt) by apply stable_sort_perm.
  rewrite upload_loop_some. intros [= <-].
  exists (map fst sorted). split; [|split; [|split]].
  - rewrite (Permutation_map fst Hperm), Ef, map_map. cbn [fst].
    now rewrite map_id, filter_andb.
  - apply sorted_names.
    + apply (Permutation_Forall (Permutation_sym Hperm)). rewrite Ef.
      rewrite Forall_map. apply Forall_forall. intros f _. reflexivity.
    + apply (stable_sort_sorted snd).
  - unfold numbered. now rewrite length_map.
  - rewrite map_map. cbn [snd].
    rewrite <- (length_map fst sorted).
    rewrite (map_fst_combine_seq
               (fun k => path_join sub (Str.of_int (start_index + Z.of_nat k) ++ ".png"))).
    apply NoDup_map_injective; [|apply seq_NoDup].
    intros x y E. apply s3_key_inj in E. lia.
Qed.

Lemma upload_numbers_pictures_in_time_order_witness :
  exists chron,
    Permutation chron
      (filter (fun f => Str.endswith f ".png" && parses strptime_standin f)
              ["2024-01-01T12-00-03Z.png"; "notes.txt"; "2024-01-01T12-00-01Z.png";
               "latest.png"; "2024-01-01T12-00-02Z.png"]%string)
    /\ StronglySorted
         (fun a b => (stamp strptime_standin a <= stamp strptime_standin b)%Z) chron
    /\ [("png_files/2024-01-01T12-00-01Z.png", "radar/1.png");
        ("png_files/2024-01-01T12-00-02Z.png", "radar/2.png");
        ("png_files/2024-01-01T12-00-03Z.png", "radar/3.png")]%string
       = numbered "png_files" "radar" 1 chron
    /\ NoDup (map snd [("png_files/2024-01-01T12-00-01Z.png", "radar/1.png");
                       ("png_files/2024-01-01T12-00-02Z.png", "radar/2.png");
                       ("png_files/2024-01-01T12-00-03Z.png", "radar/3.png")]%string).
Proof.
  apply (upload_numbers_pictures_in_time_order strptime_standin "radar"
           ["2024-01-01T12-00-03Z.png"; "notes.txt"; "2024-01-01T12-00-01Z.png";
            "latest.png"; "2024-01-01T12-00-02Z.png"]%string "png_files" 1).
  vm_compute. reflexivity.
Defined.

Lemma last_char_app (s t : string) :
  t <> EmptyString -> last_char (s ++ t) = last_char t.
Proof.
  intros Ht. induction s as [|c s IH]; [reflexivity|].
  cbn [append last_char]. rewrite IH.
  destruct (s ++ t)%string eqn:E; [|reflexivity].
  destruct s; cbn [append] in E; [contradiction | discriminate].
Qed.

Lemma last_char_In (s : string) (c : ascii) :
  last_char s = Some c -> In c (list_ascii_of_string s).
Proof.
  induction s as [|x s IH]; [discriminate|].
  cbn [last_char list_ascii_of_string]. destruct s as [|y s'].
  - intros [= ->]. now left.
  - intros H. right. now apply IH.
Qed.

(** A text that ends with a number does not end in Z, and a number holds no
    dot. *)
Lemma ends_in_Z_number (s : string) (n : Z) : ends_in_Z (s ++ Str.of_int n) = false.
Proof.
  unfold ends_in_Z. rewrite last_char_app by apply of_int_nonempty.
  destruct (last_char (Str.of_int n)) as [c|] eqn:E; [|reflexivity].
  apply last_char_In in E.
  pose proof (of_int_chars n) as Hc. rewrite forallb_forall in Hc.
  apply Hc, number_char_plain in E as [_ [_ [HZ Hz]]].
  apply Ascii.eqb_neq in HZ, Hz. now rewrite HZ, Hz.
Qed.

Lemma lacks_dot_number (n : Z) : lacks "." (Str.of_int n) = true.
Proof.
  unfold lacks. apply forallb_forall. intros c Hc.
  pose proof (of_int_chars n) as H. rewrite forallb_forall in H.
  apply H, number_char_plain in Hc as [Hdot _].
  apply negb_true_iff. now apply Ascii.eqb_neq.
Qed.

Lemma forecast_png_name_stem (base : string) (i : nat) :
  lacks "." base = true ->
  Str.before_dot (Master.forecast_png_name base i)
  = (base ++ "_forecast_" ++ Str.of_int (Z.of_nat i + 1))%string.
Proof.
  intros Hb. unfold Master.forecast_png_name.
  replace (base ++ "_forecast_" ++ Str.of_int (Z.of_nat i + 1) ++ ".png")%string
    with ((base ++ "_forecast_" ++ Str.of_int (Z.of_nat i + 1)) ++ String "." "png")%string
    by (now rewrite !append_assoc).
  apply before_dot_app.
  now rewrite !lacks_app, Hb, lacks_dot_number.
Qed.

(** The pictures of the forecasts of src/master.py are never uploaded: their
    names end in _forecast_ and a number, the stem of such a name does not
    end in Z, strptime rejects it, and upload_and_rename_files drops the
    file, so that it asks for no upload at all from a folder of such
    pictures. *)
Theorem master_forecast_pictures_are_not_uploaded
    (strptime : string -> result DateTime.datetime) (SUBFOLDER : option string)
    (listing : list string) (folder : string) (start_index : Z) :
  (forall s t, strptime s = Ok t -> ends_in_Z s = true) ->
  (forall s e, strptime s = Raise e -> isinstance e "ValueError" = true) ->
  Forall (fun f => exists base i,
                     lacks "." base = true /\ f = Master.forecast_png_name base i)
         listing ->
  Master.upload_and_rename_files strptime SUBFOLDER listing folder start_index = Ok [].
Proof.
  intros Haccept Hreject Hnames. unfold Master.upload_and_rename_files.
  rewrite files_with_timestamps_none; [reflexivity|].
  apply Forall_forall. intros f Hf. apply filter_In in Hf as [Hf _].
  rewrite Forall_forall in Hnames. destruct (Hnames f Hf) as [base [i [Hb ->]]].
  unfold Master.extract_timestamp. rewrite forecast_png_name_stem by exact Hb.
  destruct (strptime _) as [t|e] eqn:Et.
  - apply Haccept in Et.
    replace (base ++ "_forecast_" ++ Str.of_int (Z.of_nat i + 1))%string
      with ((base ++ "_forecast_") ++ Str.of_int (Z.of_nat i + 1))%string in Et
      by (now rewrite append_assoc).
    rewrite ends_in_Z_number in Et. discriminate.
  - now rewrite (Hreject _ _ Et).
Qed.

Lemma master_forecast_pictures_are_not_uploaded_witness :
  Master.upload_and_rename_files strptime_standin (Some "radar"%string)
    (map (Master.forecast_png_name "2024-01-01T12-00-00Z") (seq 0 6))
    "forecast_files" 21
  = Ok [].
Proof.
  apply (master_forecast_pictures_are_not_uploaded strptime_standin
           (Some "radar"%string)
           (map (Master.forecast_png_name "2024-01-01T12-00-00Z") (seq 0 6))
           "forecast_files" 21).
  - intros s t. unfold strptime_standin. destruct (ends_in_Z s); [reflexivity|discriminate].
  - intros s e. unfold strptime_standin. destruct (ends_in_Z s); [discriminate|].
    intros [= <-]. reflexivity.
  - apply Forall_forall. intros f Hf. apply in_map_iff in Hf as [i [<- _]].
    exists "2024-01-01T12-00-00Z"%string, i. split; reflexivity.
Defined.

(** Without the environment variable SUBFOLDER the key of the first picture
    cannot be built: where there is a picture to upload,
    upload_and_rename_files raises a TypeError before any upload, and where
    there is none it asks for none. *)
Theorem upload_without_subfolder
    (strptime : string -> result DateTime.datetime)
    (listing : list string) (folder : string) (start_index : Z) :
  (forall s e, strptime s = Raise e -> isinstance e "ValueError" = true) ->
  match filter (fun f => Str.endswith f ".png" && parses strptime f) listing with
  | [] => Master.upload_and_rename_files strptime None listing folder start_index
          = Ok []
  | _ :: _ => raises (Master.upload_and_rename_files strptime None listing folder
                        start_index) "TypeError"
  end.
Proof.
  intros Hreject. unfold Master.upload_and_rename_files.
  assert (Hf : forall files, exists fwt,
             Master.files_with_timestamps strptime files = Ok fwt).
  { induction files as [|f rest [tl IH]]; [now exists []|].
    cbn [Master.files_with_timestamps]. unfold Master.extract_timestamp.
    destruct (strptime _) as [t|e] eqn:Et; cbn [bind]; rewrite IH; cbn [bind].
    - eauto.
    - rewrite (Hreject _ _ Et). cbn [bind]. eauto. }
  destruct (Hf (filter (fun f => Str.endswith f ".png") listing)) as [fwt Ef].
  rewrite Ef. cbn [bind]. apply files_with_timestamps_spec in Ef.
  rewrite filter_andb.
  remember (stable_sort _ fwt) as sorted eqn:Es.
  assert (Hperm : Permutation sorted fwt) by (subst sorted; apply stable_sort_perm).
  clear Es.
  destruct (filter (parses strptime) _) as [|f rest]; cbn [map] in Ef.
  - subst fwt. apply Permutation_sym, Permutation_nil in Hperm. now subst sorted.
  - destruct sorted as [|[filename t] tl].
    + apply Permutation_nil in Hperm. subst fwt. discriminate.
    + cbn [Master.upload_loop Master.s3_key_of bind].
      eexists. split; reflexivity.
Qed.

Lemma upload_without_subfolder_witness :
  raises (Master.upload_and_rename_files strptime_standin None
            ["2024-01-01T12-00-03Z.png"; "notes.txt"]%string "png_files" 1)
         "TypeError".
Proof.
  apply (upload_without_subfolder strptime_standin
           ["2024-01-01T12-00-03Z.png"; "notes.txt"]%string "png_files" 1).
  intros s e. unfold strptime_standin. destruct (ends_in_Z s); [discriminate|].
  intros [= <-]. reflexivity.
Defined.

(* ------------------------------------------------------------------ *)
(** ** The interpolated pictures of src/legacy/forecast.py *)











(* ------------------------------------------------------------------ *)
(** ** The downloader *)

Section DownloaderLemmas.

Variable int_of_str : string -> result Z.
Variable h5_folder : string.
Variable download_file : string -> string -> result unit.

Local Abbreviation kept := (Downloader.kept_names int_of_str).

Lemma existsb_eqb_In (x : string) (l : list string) :
  existsb (String.eqb x) l = true <-> In x l.
Proof.
  rewrite existsb_exists. split.
  - intros [y [Hy E]]. apply String.eqb_eq in E. now subst.
  - intros H. exists x. split; [exact H | apply String.eqb_refl].
Qed.

Lemma download_loop_spec (features : list Downloader.feature) :
  forall folder fetched paths folder' fetched' paths',
    Downloader.download_loop int_of_str h5_folder download_file
      features folder fetched paths = Ok (folder', fetched', paths') ->
    paths' = paths ++ map (path_join h5_folder) (kept features)
    /\ (forall n, In n fetched' <-> In n fetched \/ In n (kept features))
    /\ (forall n, In n (kept features) -> In n folder')
    /\ (forall n, In n folder -> In n folder')
    /\ (forall n, In n folder' -> In n folder \/ In n (kept features)).
Proof.
  induction features as [|f rest IH]; intros folder fetched paths folder' fetched' paths' H;
    cbn [Downloader.download_loop] in H.
  - injection H as <- <- <-. unfold Downloader.kept_names. cbn [filter map].
    rewrite app_nil_r. split; [reflexivity|]. split; [intros n; cbn [In]; tauto|].
    split; [intros n []|]. split; [auto | auto].
  - unfold Downloader.kept_names. cbn [filter].
    destruct (Downloader.should_skip_file int_of_str (Downloader.datetime f))
      as [[|]|e] eqn:Es; cbn [bind] in H; [| |discriminate].
    + apply IH in H. exact H.
    + cbn [map]. fold (kept rest).
      set (name := Downloader.file_name_of (Downloader.datetime f)) in *.
      destruct (existsb (String.eqb name) folder) eqn:Ex.
      * apply existsb_eqb_In in Ex.
        apply IH in H as [Hp [Hf [Hk [Hm Hb]]]].
        split; [now rewrite Hp, <- app_assoc|]. split; [|split; [|split]].
        -- intros n. rewrite Hf. cbn [In]. tauto.
        -- intros n [E|Hn]; [rewrite <- E; now apply Hm | auto].
        -- exact Hm.
        -- intros n Hn. destruct (Hb n Hn); cbn [In]; tauto.
      * destruct (download_file _ _); [|discriminate]. cbn [bind] in H.
        apply IH in H as [Hp [Hf [Hk [Hm Hb]]]].
        split; [now rewrite Hp, <- app_assoc|]. split; [|split; [|split]].
        -- intros n. rewrite Hf. cbn [In]. tauto.
        -- intros n [E|Hn]; [rewrite <- E; apply Hm; now left | auto].
        -- intros n Hn. apply Hm. now right.
        -- intros n Hn. destruct (Hb n Hn) as [[E|Hn']|Hn']; cbn [In]; tauto.
Qed.

End DownloaderLemmas.

(** After a run of download_hdf5_files that returns, the folder mirrors the
    feed: the paths returned are those of the files of the features that are
    not skipped, in the order of the feed; each of these files is in the
    folder; and a name that is still in the folder is one of them, or a file
    that was there before and could not be removed. *)
Theorem download_leaves_the_files_of_the_feed
    (int_of_str : string -> result Z) (h5_folder : string)
    (download_file : string -> string -> result unit) (removable : string -> bool)
    (features : list Downloader.feature) (folder : list string)
    (paths folder' : list string) :
  Downloader.download_hdf5_files int_of_str h5_folder download_file removable
    features folder = Ok (paths, folder') ->
  paths = map (path_join h5_folder) (Downloader.kept_names int_of_str features)
  /\ (forall n, In n (Downloader.kept_names int_of_str features) -> In n folder')
  /\ (forall n, In n folder' ->
        In n (Downloader.kept_names int_of_str features)
        \/ (In n folder /\ removable n = false)).
Proof.
  unfold Downloader.download_hdf5_files.
  destruct (Downloader.download_loop _ _ _ _ _ _ _) as [[[fd ft] ps]|] eqn:El;
    [|discriminate].
  cbn [bind]. intros [= <- <-].
  apply download_loop_spec in El as [Hp [Hf [Hk [Hm Hb]]]].
  cbn [app] in Hp. split; [exact Hp|]. unfold Downloader.cleanup_old_files. split.
  - intros n Hn. apply filter_In. split; [now apply Hk|].
    apply orb_true_iff. left. apply existsb_eqb_In. apply Hf. now right.
  - intros n Hn. apply filter_In in Hn as [Hn Hc].
    apply orb_true_iff in Hc as [Hc|Hc].
    + apply existsb_eqb_In in Hc. apply Hf in Hc. destruct Hc as [[]|Hc].
      left. exact Hc.
    + apply negb_true_iff in Hc. destruct (Hb n Hn) as [Ho|Hkept].
      * right. now split.
      * left. exact Hkept.
Qed.

Lemma download_leaves_the_files_of_the_feed_witness :
  ["h5_files/2024-01-01T12-00-00Z.h5"; "h5_files/2024-01-01T12-10-00Z.h5"]%string
  = map (path_join "h5_files")
        (Downloader.kept_names Downloader.int_standin
           [Downloader.mk_feature "2024-01-01T12:00:00Z" "https://a";
            Downloader.mk_feature "2024-01-01T12:05:00Z" "https://b";
            Downloader.mk_feature "2024-01-01T12:10:00Z" "https://c"])
  /\ (forall n,
        In n (Downloader.kept_names Downloader.int_standin
                [Downloader.mk_feature "2024-01-01T12:00:00Z" "https://a";
                 Downloader.mk_feature "2024-01-01T12:05:00Z" "https://b";
                 Downloader.mk_feature "2024-01-01T12:10:00Z" "https://c"]) ->
        In n ["2024-01-01T12-10-00Z.h5"; "2024-01-01T12-00-00Z.h5"]%string)
  /\ (forall n,
        In n ["2024-01-01T12-10-00Z.h5"; "2024-01-01T12-00-00Z.h5"]%string ->
        In n (Downloader.kept_names Downloader.int_standin
                [Downloader.mk_feature "2024-01-01T12:00:00Z" "https://a";
                 Downloader.mk_feature "2024-01-01T12:05:00Z" "https://b";
                 Downloader.mk_feature "2024-01-01T12:10:00Z" "https://c"])
        \/ (In n ["2024-01-01T11-50-00Z.h5"; "2024-01-01T12-00-00Z.h5"]%string
            /\ true = false)).
Proof.
  apply (download_leaves_the_files_of_the_feed Downloader.int_standin "h5_files"
           (fun _ _ => Ok tt) (fun _ => true)
           [Downloader.mk_feature "2024-01-01T12:00:00Z" "https://a";
            Downloader.mk_feature "2024-01-01T12:05:00Z" "https://b";
            Downloader.mk_feature "2024-01-01T12:10:00Z" "https://c"]
           ["2024-01-01T11-50-00Z.h5"; "2024-01-01T12-00-00Z.h5"]%string).
  vm_compute. reflexivity.
Defined.
